(** * Occupancy events from chair detections

    A verification development for the event factory of the repository
    (src/event_factory/roi): the region-of-interest filter [roi.py] and the
    stateful chair tracker [business_logic.py].

    Numbers: the coordinates are Python floats (IEEE 754 binary64); a float
    is modelled as the rational [Q] it denotes, compared with the boolean
    tests of QArith.  The sums that a comparison or a floor division reads,
    [main['y'] + 55], [main['y'] - 55] and [bbox_x_min + bbox_x_max], are
    rounded to binary64 as Python rounds them ([Binary64.round]).  The
    centers of the boxes and the corners of the markers are computed with
    the exact operations: the model's value is Python's whenever the
    intermediate results are floats, so that Python rounds nothing.
    Integers (the chair count) are [Z].

    Objects: a chair is a Python dict [{'x', 'y', 'occupied'}] that is created
    once, on the calibration frame, and may be appended to several rows of the
    chair map.  The rows therefore hold references, and the flag 'occupied' is
    mutated through them.  The model keeps the chairs in a store (a list
    indexed by address) and the chair map as rows of addresses. *)

From Stdlib Require Import QArith Qround Qabs Qpower Lqa Lia.
From stdpp Require Import list strings pretty gmap.

Set Default Proof Using "Type".

(** ** Data model *)

(** A point [{'x': .., 'y': ..}]. *)
Record Point := mkPoint { x : Q; y : Q }.

(** A bounding box [{'type': 'quadrilateral', 'coordinates': [p0, p1, p2, p3]}].
    The detector (yolo.py) and the tracker always build the four corners in
    the order top-left, top-right, bottom-right, bottom-left; [coord0] ..
    [coord3] are [coordinates[0]] .. [coordinates[3]]. *)
Record BoundingBox := mkBoundingBox {
  type : string;
  coord0 : Point;
  coord1 : Point;
  coord2 : Point;
  coord3 : Point
}.

Definition coordinates (b : BoundingBox) : list Point :=
  [coord0 b; coord1 b; coord2 b; coord3 b].

(** A prediction; the detector's predictions carry no 'trackId', the
    synthetic ones of the tracker carry the empty string. *)
#[warnings="-register-all"]
Inductive Prediction := mkPrediction {
  classId : string;
  trackId : option string;
  confidence : Q;
  boundingBox : BoundingBox;
  related : list Prediction
}.

(** A detection: the list under 'predictions' and the rest of the payload,
    which no step reads. *)
Record Detection := mkDetection {
  predictions : list Prediction;
  frameMetadata : string
}.

(** [detection['predictions'].append(p)]: the list object is mutated in place,
    so the caller's detection has the new content afterwards. *)
Definition append_prediction (detection : Detection) (p : Prediction) : Detection :=
  {| predictions := predictions detection ++ [p];
     frameMetadata := frameMetadata detection |}.

(** A chair dict [{'x': .., 'y': .., 'occupied': ..}]. *)
Record Chair := mkChair { point : Point; occupied : bool }.

Definition set_occupied (c : Chair) (b : bool) : Chair :=
  {| point := point c; occupied := b |}.

Inductive EventSignal :=
| EventStartedSignal (event_id : string) (detection : Detection)
| EventEndedSignal (event_id : string) (detection : Detection).

(** Comparisons of floats, as booleans. *)
Definition Qleb (a b : Q) : bool := Qle_bool a b.
Definition Qgeb (a b : Q) : bool := Qle_bool b a.
Definition Qltb (a b : Q) : bool := negb (Qle_bool b a).
Definition Qgtb (a b : Q) : bool := negb (Qle_bool a b).

(** ** Floating point

    The result of [a + b] or [a - b] on floats is the binary64 number
    nearest to the exact sum, the one with an even significand when two are
    as near.  A sum beyond the largest binary64 number is infinite in Python;
    [round] gives [2 ^ 1024] or more there, which is above every float as
    the infinite value is (coordinates of that size, for which the floor
    division of the sum is not a number, are not considered). *)

Module Binary64.

(** [2 ^ e], for an exponent of either sign. *)
Definition pow2 (e : Z) : Q := 2 ^ e.

(** [ilog2 q], for [q > 0], is the exponent [l] of the binade of [q]:
    [2 ^ l <= q < 2 ^ (l + 1)].  The difference of the bit lengths of the
    numerator and of the denominator is [l] or [l + 1]. *)
Definition ilog2 (q : Q) : Z :=
  let l := (Z.log2 (Qnum q) - Z.log2 (Zpos (Qden q)))%Z in
  if Qle_bool (pow2 l) q then l else (l - 1)%Z.

(** The nearest integer, the even one of the two at a tie. *)
Definition round_half_even (q : Q) : Z :=
  let f := Qfloor q in
  match Qcompare (q - inject_Z f) (1 # 2) with
  | Lt => f
  | Gt => (f + 1)%Z
  | Eq => if Z.even f then f else (f + 1)%Z
  end.

(** The exponent of the unit in the last place at [q]: 53 significant bits,
    and no exponent below -1074 (the subnormal numbers). *)
Definition ulp_exponent (q : Q) : Z := Z.max (ilog2 (Qabs q) - 52) (-1074).

(** The binary64 number nearest to [q], ties to even. *)
Definition round (q : Q) : Q :=
  let q := Qred q in
  if Qeq_bool q 0 then 0
  else
    let ulp := pow2 (ulp_exponent q) in
    Qred (inject_Z (round_half_even (q / ulp)) * ulp).

(** [a + b] and [a - b] on floats. *)
Definition add (a b : Q) : Q := round (a + b).
Definition sub (a b : Q) : Q := round (a - b).

(** The rationals that are binary64 numbers: a significand below [2 ^ 53]
    in absolute value, at an exponent of -1074 or more. *)
Definition representable (q : Q) : Prop :=
  exists m e : Z,
    (Z.abs m < 2 ^ 53)%Z /\ (-1074 <= e)%Z /\ (q == inject_Z m * pow2 e)%Q.

End Binary64.

Module RoIBusinessLogic.

(** The state of an instance: [self._chair_count], [self._chair_map] (rows of
    addresses) and the store of the chair objects the rows refer to. *)
Record t := mk {
  _chair_count : Z;
  _chair_map : list (list nat);
  chairs : list Chair
}.

(** [__init__] *)
Definition init : t :=
  {| _chair_count := 0; _chair_map := []; chairs := [] |}.

(** *** State and error monad

    A method reads and writes [self] and may raise (IndexError): [None]. *)
Definition M (A : Type) : Type := t -> option (A * t).

#[export] Instance M_ret : MRet M := fun A a self => Some (a, self).
#[export] Instance M_bind : MBind M := fun A B f m self =>
  match m self with
  | Some (a, self') => f a self'
  | None => None
  end.

Definition get : M t := fun self => Some (self, self).
Definition put (self' : t) : M unit := fun _ => Some (tt, self').
Definition lift {A} (o : option A) : M A := fun self =>
  match o with
  | Some a => Some (a, self)
  | None => None
  end.

(** A [for] loop over a list, threading the loop variables [b]. *)
Fixpoint foldM {A B} (body : B -> A -> M B) (l : list A) (b : B) : M B :=
  match l with
  | [] => mret b
  | a :: l' => b' ← body b a; foldM body l' b'
  end.

(** [self._chair_map[line][column]]: the address of the chair. *)
Definition chair_ref (line column : nat) : M nat :=
  self ← get;
  row ← lift (_chair_map self !! line);
  lift (row !! column).

(** Reading the dict at an address. *)
Definition deref (r : nat) : M Chair :=
  self ← get; lift (chairs self !! r).

(** The same instance with another content of the store. *)
Definition with_chairs (self : t) (h : list Chair) : t :=
  {| _chair_count := _chair_count self;
     _chair_map := _chair_map self;
     chairs := h |}.

(** [chair['occupied'] = b] on the dict at address [r]. *)
Definition store_occupied (r : nat) (b : bool) : M unit :=
  self ← get;
  c ← lift (chairs self !! r);
  put (with_chairs self (<[r := set_occupied c b]> (chairs self))).

(** *** Overlay *)

Definition unit_box : BoundingBox :=
  {| type := "quadrilateral";
     coord0 := mkPoint 0 0;
     coord1 := mkPoint 1 0;
     coord2 := mkPoint 1 1;
     coord3 := mkPoint 0 1 |}.

Definition count_label (total occupied_chairs : Z) : string :=
  "Total de caideras: " +:+ pretty total +:+
  " | Cadeiras ocupadas: " +:+ pretty occupied_chairs +:+
  " | Cadeiras livres: " +:+ pretty (total - occupied_chairs)%Z.

Definition _add_count : M Prediction :=
  self ← get;
  occupied_chairs ←
    foldM (fun n line =>
      foldM (fun n r =>
        chair ← deref r;
        mret (if occupied chair then (n + 1)%Z else n)) line n)
      (_chair_map self) 0%Z;
  mret {| classId := count_label (_chair_count self) occupied_chairs;
          trackId := Some "";
          confidence := 9 # 10;
          boundingBox := unit_box;
          related := [] |}.

Definition _create_point (point_ : Chair) (name : string) : Prediction :=
  let p := point point_ in
  {| classId := name;
     trackId := Some "";
     confidence := 9 # 10;
     boundingBox :=
       {| type := "quadrilateral";
          coord0 := mkPoint (x p) (y p);
          coord1 := mkPoint (x p + 2) (y p);
          coord2 := mkPoint (x p + 2) (y p + 2);
          coord3 := mkPoint (x p) (y p + 2) |};
     related := [] |}.

Definition marker_name (i : nat) (occ : bool) : string :=
  if occ then "M" +:+ pretty i +:+ "(ocupado)"
  else "M" +:+ pretty i +:+ "(livre)".

Definition _insert_info (detection : Detection) : M Detection :=
  count ← _add_count;
  self ← get;
  foldM (fun detection i =>
      self ← get;
      row ← lift (_chair_map self !! i);
      foldM (fun detection r =>
          point_ ← deref r;
          mret (append_prediction detection
                  (_create_point point_ (marker_name i (occupied point_)))))
        row detection)
    (seq 0 (length (_chair_map self)))
    (append_prediction detection count).

(** *** Calibration *)

Definition _calculate_medium_point (chair : Prediction) : Point :=
  let b := boundingBox chair in
  {| x := (x (coord1 b) - x (coord0 b)) / 2 + x (coord0 b);
     y := (y (coord2 b) - y (coord1 b)) / 2 + y (coord1 b) |}.

(** The chairs the calibration loop creates, one per prediction and in
    prediction order, each with its address.  Nothing mutates a chair during
    calibration, so the content travels with the address. *)
Definition new_chairs (detection : Detection) : list (nat * Chair) :=
  imap (fun k p => (k, {| point := _calculate_medium_point p;
                          occupied := false |}))
       (predictions detection).

Definition chair_y (c : nat * Chair) : Q := y (point (snd c)).

(** The test of the inner loop,
    [chair['y'] < (main_chairs[i]['y'] + 55) and
     chair['y'] > (main_chairs[i]['y'] - 55)]: the two sums are floats. *)
Definition same_line (chair main : nat * Chair) : bool :=
  Qltb (chair_y chair) (Binary64.add (chair_y main) 55) &&
  Qgtb (chair_y chair) (Binary64.sub (chair_y main) 55).

(** The body of the inner loop [for i in range(0, len(main_chairs))], on the
    loop variables [(matrix_chairs, added)].  [i] is below [len(main_chairs)],
    so [main_chairs[i]] is always there. *)
Definition add_to_line (chair : nat * Chair) (main_chairs : list (nat * Chair))
    (st : list (list (nat * Chair)) * bool) (i : nat) :
    list (list (nat * Chair)) * bool :=
  let '(matrix_chairs, added) := st in
  match main_chairs !! i with
  | Some main =>
      if same_line chair main
      then (alter (fun row => row ++ [chair]) i matrix_chairs, true)
      else (matrix_chairs, added)
  | None => (matrix_chairs, added)
  end.

Definition add_to_lines (chair : nat * Chair) (main_chairs : list (nat * Chair))
    (matrix_chairs : list (list (nat * Chair))) :
    list (list (nat * Chair)) * bool :=
  fold_left (add_to_line chair main_chairs)
            (seq 0 (length main_chairs)) (matrix_chairs, false).

(** One turn of the outer loop, on the loop variables
    [(matrix_chairs, main_chairs)]. *)
Definition place_chair
    (st : list (list (nat * Chair)) * list (nat * Chair))
    (chair : nat * Chair) :
    list (list (nat * Chair)) * list (nat * Chair) :=
  let '(matrix_chairs, main_chairs) := st in
  match main_chairs with
  | [] => (matrix_chairs ++ [[chair]], main_chairs ++ [chair])
  | _ =>
      let '(matrix_chairs', added) :=
        add_to_lines chair main_chairs matrix_chairs in
      if added then (matrix_chairs', main_chairs)
      else (matrix_chairs' ++ [[chair]], main_chairs ++ [chair])
  end.

(** The rows after the first loop, and their anchors. *)
Definition lines_of (cs : list (nat * Chair)) :
    list (list (nat * Chair)) * list (nat * Chair) :=
  fold_left place_chair cs ([], []).

(** The list [remove]: the indices of the rows of at most 4 chairs, each
    inserted at the front. *)
Definition note_short_row {A} (matrix_chairs : list (list A))
    (remove : list nat) (i : nat) : list nat :=
  match matrix_chairs !! i with
  | Some row => if (length row <=? 4)%nat then i :: remove else remove
  | None => remove
  end.

Definition rows_to_remove {A} (matrix_chairs : list (list A)) : list nat :=
  fold_left (note_short_row matrix_chairs) (seq 0 (length matrix_chairs)) [].

(** [for i in remove: matrix_chairs.pop(i)] *)
Definition pop_rows {A} (remove : list nat) (matrix_chairs : list (list A)) :
    list (list A) :=
  fold_left (fun m i => delete i m) remove matrix_chairs.

Definition _create_chair_map (detection : Detection) : list (list (nat * Chair)) :=
  let matrix_chairs := fst (lines_of (new_chairs detection)) in
  pop_rows (rows_to_remove matrix_chairs) matrix_chairs.

(** *** Steady state *)

(** The two nested tests on a prediction's box. *)
Definition inside (chair : Chair) (pred : Prediction) : bool :=
  let b := boundingBox pred in
  (Qgeb (x (point chair)) (x (coord0 b)) && Qleb (x (point chair)) (x (coord1 b)))
  && (Qgeb (y (point chair)) (y (coord1 b)) && Qleb (y (point chair)) (y (coord2 b))).

(** The loop over the predictions; [Some b] is an early [return b], [None]
    means that the loop ran to its end. *)
Fixpoint scan_predictions (line column : nat) (preds : list Prediction) :
    M (option bool) :=
  match preds with
  | [] => mret None
  | pred :: preds' =>
      r ← chair_ref line column;
      chair ← deref r;
      if inside chair pred then
        if negb (occupied chair) then mret (Some false)
        else _ ← store_occupied r false; mret (Some true)
      else scan_predictions line column preds'
  end.

Definition _check_chair_occupied (line column : nat) (detection : Detection) :
    M bool :=
  early ← scan_predictions line column (predictions detection);
  match early with
  | Some b => mret b
  | None =>
      r ← chair_ref line column;
      chair ← deref r;
      if occupied chair then mret false
      else _ ← store_occupied r true; mret true
  end.

Definition _check_chair_map (detection : Detection) : M bool :=
  self ← get;
  foldM (fun (changed : bool) i =>
      self ← get;
      row ← lift (_chair_map self !! i);
      foldM (fun (changed : bool) j =>
          c ← _check_chair_occupied i j detection;
          mret (if c : bool then true else changed))
        (seq 0 (length row)) changed)
    (seq 0 (length (_chair_map self))) false.

(** *** Events *)

(** [uuid4()] is an input of the model: [event_id] is the identifier drawn. *)
Definition _create_event (event_id : string) (detection : Detection) :
    list EventSignal :=
  [EventStartedSignal event_id detection; EventEndedSignal event_id detection].

(** [events if events else None] *)
Definition or_none (events : list EventSignal) : option (list EventSignal) :=
  match events with
  | [] => None
  | _ => Some events
  end.

(** [process]: the result is paired with the content of the caller's
    detection object after the call.  On a calibration frame the store is
    the list of the chairs created for the frame: the map was empty, so no
    chair of an earlier frame is referred to any more. *)
Definition process (event_id : string) (detection : Detection) :
    M (Detection * option (list EventSignal)) :=
  self ← get;
  match _chair_map self with
  | [] =>
      let matrix := _create_chair_map detection in
      _ ← put {| _chair_count :=
                   fold_left (fun n lines => (n + Z.of_nat (length lines))%Z)
                             matrix (_chair_count self);
                 _chair_map := map (map fst) matrix;
                 chairs := map snd (new_chairs detection) |};
      detection' ← _insert_info detection;
      mret (detection', or_none (_create_event event_id detection'))
  | _ =>
      changed ← _check_chair_map detection;
      if changed : bool then
        detection' ← _insert_info detection;
        mret (detection', or_none (_create_event event_id detection'))
      else mret (detection, or_none [])
  end.

End RoIBusinessLogic.

(** ** The region of interest (roi.py) *)

Module Shapely.

(** The step calls [shapely.geometry.polygon.Polygon(points).contains(Point)].
    The library is not part of the repository; this is its documented
    predicate on a simple polygon given by its ring of vertices: a point is
    contained when it lies in the interior, and a point of the boundary is
    not contained ([covers] is the library's closed predicate).  The interior
    is decided by the parity of the crossings of the ray to the right of the
    point, in exact arithmetic. *)

(** The edges of the ring, the closing one included. *)
Definition edges (ring : list Point) : list (Point * Point) :=
  match ring with
  | [] => []
  | p :: ps => zip ring (ps ++ [p])
  end.

(** Twice the signed area of the triangle [a b p]. *)
Definition cross (a b p : Point) : Q :=
  (x b - x a) * (y p - y a) - (x p - x a) * (y b - y a).

Definition between (a b v : Q) : bool :=
  (Qleb a v && Qleb v b) || (Qleb b v && Qleb v a).

Definition on_segment (p : Point) (e : Point * Point) : bool :=
  Qeq_bool (cross e.1 e.2 p) 0
  && between (x e.1) (x e.2) (x p)
  && between (y e.1) (y e.2) (y p).

Definition on_boundary (ring : list Point) (p : Point) : bool :=
  existsb (on_segment p) (edges ring).

(** The edge meets the open ray from [p] to the right. *)
Definition crosses_ray (p : Point) (e : Point * Point) : bool :=
  if xorb (Qgtb (y e.1) (y p)) (Qgtb (y e.2) (y p)) then
    if Qltb (y e.1) (y e.2)
    then Qgtb (cross e.1 e.2 p) 0
    else Qltb (cross e.1 e.2 p) 0
  else false.

Definition odd_crossings (ring : list Point) (p : Point) : bool :=
  fold_left (fun parity e => xorb parity (crosses_ray p e)) (edges ring) false.

(** [Polygon(ring).contains(Point(p))] *)
Definition contains (ring : list Point) (p : Point) : bool :=
  negb (on_boundary ring p) && odd_crossings ring p.

(** [Polygon(ring).covers(Point(p))], the closed predicate. *)
Definition covers (ring : list Point) (p : Point) : bool :=
  on_boundary ring p || odd_crossings ring p.

End Shapely.

Module RegionOfInterest.

(** [min] and [max] of a list that is not empty. *)
Definition py_min (v : Q) (vs : list Q) : Q :=
  fold_left (fun m w => if Qltb w m then w else m) vs v.
Definition py_max (v : Q) (vs : list Q) : Q :=
  fold_left (fun m w => if Qgtb w m then w else m) vs v.

(** [(a + b) // 2] on floats: the sum is rounded to a float, and the floor
    division of a float by 2 gives the floor of its exact half. *)
Definition floor_half (a b : Q) : Q :=
  inject_Z (Qfloor (Binary64.add a b / 2)).

(** The point [person_foot] of [__pred_is_inside_region]. *)
Definition person_foot (prediction : Prediction) : Point :=
  let b := boundingBox prediction in
  let bbox_x_min := py_min (x (coord0 b)) [x (coord1 b); x (coord2 b); x (coord3 b)] in
  let bbox_x_max := py_max (x (coord0 b)) [x (coord1 b); x (coord2 b); x (coord3 b)] in
  let bbox_y_max := py_max (y (coord0 b)) [y (coord1 b); y (coord2 b); y (coord3 b)] in
  let x_mean := floor_half bbox_x_min bbox_x_max in
  {| x := x_mean; y := bbox_y_max |}.

Definition __pred_is_inside_region (_region : list Point)
    (prediction : Prediction) : bool :=
  Shapely.contains _region (person_foot prediction).

Definition process (_region : list Point) (detection : Detection) : Detection :=
  {| predictions :=
       List.filter (__pred_is_inside_region _region) (predictions detection);
     frameMetadata := frameMetadata detection |}.

End RegionOfInterest.

(** ** The time-to-live event (business_logic.py, class Event) *)

Module Event.

(** The attributes of an instance.  [time.time()] is an input of the model:
    [creation_time] is the clock's value when [__init__] runs. *)
Record t := mk {
  detection : Detection;
  num_detected_frames : Z;
  creation_time : Q;
  ttl : Z;
  current_ttl : Z
}.

(** [__init__] *)
Definition init (now : Q) (detection : Detection) (ttl : Z) : t :=
  {| detection := detection;
     num_detected_frames := 1;
     creation_time := now;
     ttl := ttl;
     current_ttl := ttl |}.

Definition _reset_ttl (self : t) : t :=
  {| detection := detection self;
     num_detected_frames := num_detected_frames self;
     creation_time := creation_time self;
     ttl := ttl self;
     current_ttl := ttl self |}.

Definition no_detection (self : t) : t :=
  {| detection := detection self;
     num_detected_frames := num_detected_frames self;
     creation_time := creation_time self;
     ttl := ttl self;
     current_ttl := current_ttl self - 1 |}.

Definition new_detection (self : t) (detection : Detection) : t :=
  _reset_ttl
    {| detection := detection;
       num_detected_frames := num_detected_frames self + 1;
       creation_time := creation_time self;
       ttl := ttl self;
       current_ttl := current_ttl self |}.

Definition is_expired (self : t) : bool := (current_ttl self <=? 0)%Z.

(** The calls a user makes on an event, frame after frame. *)
Inductive call :=
| NoDetection
| NewDetection (detection : Detection).

Definition apply_call (self : t) (c : call) : t :=
  match c with
  | NoDetection => no_detection self
  | NewDetection d => new_detection self d
  end.

Definition apply_calls (self : t) (cs : list call) : t :=
  fold_left apply_call cs self.

End Event.

(** ** The detector's output (yolo.py) *)

Module YOLOv5.

(** A row of a tensor of [results.xyxy]: the box, the score and the class
    index, all floats. *)
Record Row := mkRow { x1 : Q; y1 : Q; x2 : Q; y2 : Q; score : Q; cls : Q }.

(** [int(v)] on a float: truncation towards zero. *)
Definition int_of_float (v : Q) : Z :=
  if Qle_bool 0 v then Qfloor v else Qceiling v.

(** The body of the inner loop: the prediction of a row.  [names] is
    [self.model.names]; a class index that is not a key raises (KeyError):
    [None]. *)
Definition row_prediction (names : gmap Z string) (pred : Row) :
    option Prediction :=
  let confidence_score := score pred in
  let class_id := int_of_float (cls pred) in
  class_name ← names !! class_id;
  Some {| classId := class_name;
          trackId := None;
          confidence := confidence_score;
          boundingBox :=
            {| type := "quadrilateral";
               coord0 := mkPoint (x1 pred) (y1 pred);
               coord1 := mkPoint (x2 pred) (y1 pred);
               coord2 := mkPoint (x2 pred) (y2 pred);
               coord3 := mkPoint (x1 pred) (y2 pred) |};
          related := [] |}.

(** The inner loop [for pred in preds], on [frame_predictions]. *)
Fixpoint frame_loop (names : gmap Z string) (preds : list Row)
    (frame_predictions : list Prediction) : option (list Prediction) :=
  match preds with
  | [] => Some frame_predictions
  | pred :: preds' =>
      p ← row_prediction names pred;
      frame_loop names preds' (frame_predictions ++ [p])
  end.

(** The outer loop [for preds in results.xyxy], on [frames_predictions]. *)
Fixpoint frames_loop (names : gmap Z string) (xyxy : list (list Row))
    (frames_predictions : list (list Prediction)) :
    option (list (list Prediction)) :=
  match xyxy with
  | [] => Some frames_predictions
  | preds :: xyxy' =>
      frame_predictions ← frame_loop names preds [];
      frames_loop names xyxy' (frames_predictions ++ [frame_predictions])
  end.

Definition _yolo_output_to_predictions (names : gmap Z string)
    (xyxy : list (list Row)) : option (list (list Prediction)) :=
  frames_loop names xyxy [].

(** An entry of the batch; only 'newFrameData' is read here (the frame
    buffer goes to the image decoder). *)
Record InferenceFrameData := mkFrameData {
  frame : string;
  newFrameData : string
}.

Record InferencePredictionData := mkPredictionData {
  predictions_of : list Prediction;
  newFrameData_of : string;
  misc : list (string * string)
}.

(** [__call__], after the network has answered: [xyxy] is [results.xyxy]
    for the decoded images of the batch. *)
Definition call (names : gmap Z string) (batch : list InferenceFrameData)
    (xyxy : list (list Row)) : option (list InferencePredictionData) :=
  frames_predictions ← _yolo_output_to_predictions names xyxy;
  Some (zip_with (fun batch_dict frame_predictions =>
                    {| predictions_of := frame_predictions;
                       newFrameData_of := newFrameData batch_dict;
                       misc := [] |})
                 batch frames_predictions).

End YOLOv5.

(** ** Rounding to binary64 *)

Module Binary64Facts.
Import Binary64.
#[local] Open Scope Q_scope.

Lemma round_comp (a b : Q) : a == b -> round a = round b.
Proof. intros H. unfold round. by rewrite (Qred_complete _ _ H). Qed.

Lemma pow2_pos e : 0 < pow2 e.
Proof. by apply Qpower_0_lt. Qed.

Lemma pow2_add a b : pow2 (a + b) == pow2 a * pow2 b.
Proof. by apply Qpower_plus. Qed.

Lemma pow2_le a b : (a <= b)%Z -> pow2 a <= pow2 b.
Proof. intros H. by apply Qpower_le_compat_l. Qed.

Lemma pow2_Z n : (0 <= n)%Z -> pow2 n == inject_Z (2 ^ n).
Proof. intros H. unfold pow2. by rewrite (Zpower_Qpower 2 n H). Qed.

Lemma ilog2_le (q : Q) : 0 < q -> pow2 (ilog2 q) <= q.
Proof.
  intros Hq. unfold ilog2.
  set (a := Z.log2 (Qnum q)). set (b := Z.log2 (Zpos (Qden q))).
  destruct (Qle_bool (pow2 (a - b)) q) eqn:Hle; [by apply Qle_bool_iff|].
  clear Hle.
  assert (0 < Qnum q)%Z as Hnum.
  { destruct q as [n d]. unfold Qlt in Hq. cbn in *. lia. }
  assert (0 <= a)%Z as Ha by apply Z.log2_nonneg.
  assert (0 <= b)%Z as Hb by apply Z.log2_nonneg.
  destruct (Z.log2_spec (Qnum q) Hnum) as [Hlo _]. fold a in Hlo.
  destruct (Z.log2_spec (Zpos (Qden q)) eq_refl) as [_ Hhi]. fold b in Hhi.
  assert (pow2 (a - b - 1) * pow2 (b + 1) == pow2 a) as Hsplit.
  { rewrite <- pow2_add. by replace (a - b - 1 + (b + 1))%Z with a by lia. }
  assert (pow2 a <= inject_Z (Qnum q)) as Hn.
  { rewrite pow2_Z by done. by rewrite <- Zle_Qle. }
  assert (inject_Z (Zpos (Qden q)) < pow2 (b + 1)) as Hd.
  { rewrite pow2_Z by lia. rewrite <- Zlt_Qlt.
    by replace (b + 1)%Z with (Z.succ b) by lia. }
  assert (q * inject_Z (Zpos (Qden q)) == inject_Z (Qnum q)) as Hq'.
  { destruct q as [n d]. unfold Qeq. cbn. lia. }
  pose proof (pow2_pos (a - b - 1)) as Hp.
  assert (0 < inject_Z (Zpos (Qden q))) as Hdpos by (unfold Qlt; cbn; lia).
  apply Qnot_lt_le. intros Hlt.
  assert (q * inject_Z (Zpos (Qden q)) <
          pow2 (a - b - 1) * pow2 (b + 1)) as Hcontra; [|lra].
  apply Qlt_trans with (pow2 (a - b - 1) * inject_Z (Zpos (Qden q))).
  - apply Qmult_lt_compat_r; done.
  - rewrite !(Qmult_comm (pow2 (a - b - 1))). apply Qmult_lt_compat_r; done.
Qed.

Lemma round_half_even_le (q : Q) (n : Z) :
  q <= inject_Z n -> (round_half_even q <= n)%Z.
Proof.
  intros H. unfold round_half_even.
  pose proof (Qfloor_le q) as Hf. pose proof (Qlt_floor q) as Hc.
  assert (Qcompare (q - inject_Z (Qfloor q)) (1 # 2) <> Lt -> (Qfloor q + 1 <= n)%Z)
    as Hup.
  { intros Hcmp.
    assert (inject_Z (Qfloor q) < inject_Z n) as Hlt; [|rewrite <- Zlt_Qlt in Hlt; lia].
    destruct (Qcompare (q - inject_Z (Qfloor q)) (1 # 2)) eqn:E; [| done |].
    - apply Qeq_alt in E. lra.
    - apply Qgt_alt in E. lra. }
  assert (Qfloor q <= n)%Z as Hdown.
  { rewrite Zle_Qle. lra. }
  destruct (Qcompare (q - inject_Z (Qfloor q)) (1 # 2)) eqn:E.
  - destruct (Z.even _); [done|]. by apply Hup.
  - done.
  - by apply Hup.
Qed.

Lemma round_half_even_ge (q : Q) (n : Z) :
  inject_Z n <= q -> (n <= round_half_even q)%Z.
Proof.
  intros H. unfold round_half_even.
  pose proof (Qfloor_le q) as Hf. pose proof (Qlt_floor q) as Hc.
  assert (n <= Qfloor q)%Z as Hdown.
  { assert (inject_Z n < inject_Z (Qfloor q + 1)) as Hlt by lra.
    rewrite <- Zlt_Qlt in Hlt. lia. }
  destruct (Qcompare (q - inject_Z (Qfloor q)) (1 # 2)); [destruct (Z.even _)| |]; lia.
Qed.

(** The value of [round] away from zero. *)
Lemma round_eq (z : Q) :
  ~ z == 0 ->
  round z ==
  inject_Z (round_half_even (Qred z / pow2 (ulp_exponent (Qred z)))) *
  pow2 (ulp_exponent (Qred z)).
Proof.
  intros Hz. unfold round.
  destruct (Qeq_bool (Qred z) 0) eqn:E.
  - apply Qeq_bool_iff in E. rewrite Qred_correct in E. done.
  - cbv zeta. apply Qred_correct.
Qed.

Lemma round_0 (z : Q) : z == 0 -> round z == 0.
Proof.
  intros Hz. unfold round.
  destruct (Qeq_bool (Qred z) 0) eqn:E; [done|].
  apply Qeq_bool_neq in E. rewrite Qred_correct in E. done.
Qed.

(** In the binades of the normal numbers, [z] is at least [2 ^ 52] units in
    the last place away from zero. *)
Lemma ulp_exponent_normal (z : Q) (k : Z) :
  ~ z == 0 -> (-1074 <= k < ulp_exponent z)%Z ->
  pow2 52 * pow2 (ulp_exponent z) <= Qabs z.
Proof.
  intros Hz Hk. unfold ulp_exponent in *.
  assert (0 < Qabs z) as Hpos.
  { apply Qabs_case; intros Hs.
    - destruct (Qle_lt_or_eq _ _ Hs) as [|Heq]; [done|]. by destruct Hz.
    - destruct (Qle_lt_or_eq _ _ Hs) as [|Heq]; [lra|]. by destruct Hz. }
  pose proof (ilog2_le _ Hpos) as Hlog.
  replace (Z.max (ilog2 (Qabs z) - 52) (-1074)) with (ilog2 (Qabs z) - 52)%Z
    by lia.
  rewrite <- pow2_add.
  by replace (52 + (ilog2 (Qabs z) - 52))%Z with (ilog2 (Qabs z)) by lia.
Qed.

(** A binary64 number is a multiple of every unit in the last place that is
    not above its own, and is below [2 ^ 52] units of the ones above. *)
Lemma representable_multiple (y : Q) (m k e : Z) :
  y == inject_Z m * pow2 k -> (e <= k)%Z ->
  y == inject_Z (m * 2 ^ (k - e)) * pow2 e.
Proof.
  intros Hy Hle. rewrite Hy, inject_Z_mult, <- Qmult_assoc.
  rewrite <- pow2_Z by lia. rewrite <- pow2_add.
  by replace (k - e + e)%Z with k by lia.
Qed.

Lemma representable_small (y : Q) (m k e : Z) :
  (Z.abs m < 2 ^ 53)%Z -> y == inject_Z m * pow2 k -> (k < e)%Z ->
  - (pow2 52 * pow2 e) < y /\ y < pow2 52 * pow2 e.
Proof.
  intros Hm Hy Hlt. rewrite Hy. clear y Hy.
  pose proof (pow2_pos k) as Hpk.
  pose proof (pow2_le k (e - 1) ltac:(lia)) as Hle.
  assert (pow2 (e - 1) * 2 == pow2 e) as Hhalf.
  { change 2 with (pow2 1) at 1. rewrite <- pow2_add.
    by replace (e - 1 + 1)%Z with e by lia. }
  assert (pow2 52 * 2 == inject_Z (2 ^ 53)) as H52.
  { change 2 with (pow2 1) at 1. rewrite <- pow2_add. by apply pow2_Z. }
  pose proof (pow2_pos 52) as Hp52.
  assert (inject_Z m < inject_Z (2 ^ 53)) as Hhi by (rewrite <- Zlt_Qlt; lia).
  assert (- inject_Z (2 ^ 53) < inject_Z m) as Hlo.
  { rewrite <- inject_Z_opp, <- Zlt_Qlt. lia. }
  revert Hpk Hle Hhalf H52 Hp52 Hhi Hlo.
  generalize (inject_Z m) (inject_Z (2 ^ 53)) (pow2 k) (pow2 (e - 1))
    (pow2 e) (pow2 52).
  intros M T pk ph u p52 Hpk Hle Hhalf H52 Hp52 Hhi Hlo.
  assert (M * pk < T * pk) by nra.
  assert (- (T * pk) < M * pk) by nra.
  assert (T * pk <= p52 * u) by nra.
  split; lra.
Qed.

(** Rounding does not step over a binary64 number. *)
Lemma round_le (z y : Q) : representable y -> z <= y -> round z <= y.
Proof.
  intros (m & k & Hm & Hk & Hy) Hzy.
  destruct (Qeq_dec z 0) as [Hz|Hz]; [rewrite (round_0 z Hz); lra|].
  rewrite (round_eq z Hz).
  assert (Qred z == z) as Hred by apply Qred_correct.
  assert (~ Qred z == 0) as Hz' by (by rewrite Hred).
  revert Hred Hz'. generalize (Qred z). intros z' Hred Hz'.
  assert (z' <= y) as Hzy' by (by rewrite Hred).
  pose proof (pow2_pos (ulp_exponent z')) as Hu.
  destruct (Z_le_gt_dec (ulp_exponent z') k) as [Hle|Hgt].
  - pose proof (representable_multiple y m k _ Hy Hle) as Hy'.
    set (n := (m * 2 ^ (k - ulp_exponent z'))%Z) in *.
    assert (z' / pow2 (ulp_exponent z') <= inject_Z n) as Hdiv.
    { apply Qle_shift_div_r; [done|]. by rewrite <- Hy'. }
    apply round_half_even_le in Hdiv. rewrite Zle_Qle in Hdiv.
    rewrite Hy'. by apply Qmult_le_compat_r; [|apply Qlt_le_weak].
  - pose proof (representable_small y m k (ulp_exponent z') Hm Hy ltac:(lia)) as [Hlo Hhi].
    pose proof (ulp_exponent_normal z' k Hz' ltac:(lia)) as Hnormal.
    revert Hnormal. apply Qabs_case; intros Hs Hnormal; [lra|].
    assert (z' / pow2 (ulp_exponent z') <= inject_Z (- 2 ^ 52)) as Hdiv.
    { apply Qle_shift_div_r; [done|].
      rewrite inject_Z_opp, <- pow2_Z by lia. lra. }
    apply round_half_even_le in Hdiv. rewrite Zle_Qle in Hdiv.
    rewrite inject_Z_opp, <- pow2_Z in Hdiv by lia.
    apply Qle_trans with (- pow2 52 * pow2 (ulp_exponent z')); [|lra].
    by apply Qmult_le_compat_r; [|apply Qlt_le_weak].
Qed.

Lemma round_ge (z y : Q) : representable y -> y <= z -> y <= round z.
Proof.
  intros (m & k & Hm & Hk & Hy) Hzy.
  destruct (Qeq_dec z 0) as [Hz|Hz]; [rewrite (round_0 z Hz); lra|].
  rewrite (round_eq z Hz).
  assert (Qred z == z) as Hred by apply Qred_correct.
  assert (~ Qred z == 0) as Hz' by (by rewrite Hred).
  revert Hred Hz'. generalize (Qred z). intros z' Hred Hz'.
  assert (y <= z') as Hzy' by (by rewrite Hred).
  pose proof (pow2_pos (ulp_exponent z')) as Hu.
  destruct (Z_le_gt_dec (ulp_exponent z') k) as [Hle|Hgt].
  - pose proof (representable_multiple y m k _ Hy Hle) as Hy'.
    set (n := (m * 2 ^ (k - ulp_exponent z'))%Z) in *.
    assert (inject_Z n <= z' / pow2 (ulp_exponent z')) as Hdiv.
    { apply Qle_shift_div_l; [done|]. by rewrite <- Hy'. }
    apply round_half_even_ge in Hdiv. rewrite Zle_Qle in Hdiv.
    rewrite Hy'. by apply Qmult_le_compat_r; [|apply Qlt_le_weak].
  - pose proof (representable_small y m k (ulp_exponent z') Hm Hy ltac:(lia)) as [Hlo Hhi].
    pose proof (ulp_exponent_normal z' k Hz' ltac:(lia)) as Hnormal.
    revert Hnormal. apply Qabs_case; intros Hs Hnormal; [|lra].
    assert (inject_Z (2 ^ 52) <= z' / pow2 (ulp_exponent z')) as Hdiv.
    { apply Qle_shift_div_l; [done|]. rewrite <- pow2_Z by lia. lra. }
    apply round_half_even_ge in Hdiv. rewrite Zle_Qle in Hdiv.
    rewrite <- pow2_Z in Hdiv by lia.
    apply Qle_trans with (pow2 52 * pow2 (ulp_exponent z')); [lra|].
    by apply Qmult_le_compat_r; [|apply Qlt_le_weak].
Qed.

End Binary64Facts.

(** ** The steady-state pass *)

Module Pass.
Import RoIBusinessLogic.

(** Unfolding of the monad's operations. *)
Ltac msimpl :=
  repeat (progress (unfold mbind, M_bind, mret, M_ret, get, put, lift in *;
                    cbn [fst snd] in *)).

Lemma bind_eq {A B} (m : M A) (f : A -> M B) self :
  (m ≫= f) self =
  match m self with
  | Some (a, self') => f a self'
  | None => None
  end.
Proof. done. Qed.

Lemma ret_eq {A} (a : A) self : (mret a : M A) self = Some (a, self).
Proof. done. Qed.

Lemma foldM_cons {A B} (body : B -> A -> M B) a l b self :
  foldM body (a :: l) b self =
  match body b a self with
  | Some (b', self') => foldM body l b' self'
  | None => None
  end.
Proof. done. Qed.

Lemma foldM_nil {A B} (body : B -> A -> M B) b self :
  foldM body [] b self = Some (b, self).
Proof. done. Qed.

(** A chair is covered when some prediction's box holds its point. *)
Definition covered (c : Chair) (preds : list Prediction) : bool :=
  existsb (inside c) preds.

(** What a visit leaves in the chair: free when covered, occupied when not. *)
Definition settle (preds : list Prediction) (c : Chair) : Chair :=
  set_occupied c (negb (covered c preds)).

(** A visit changes the chair when its flag equals its coverage. *)
Definition flips (preds : list Prediction) (c : Chair) : bool :=
  Bool.eqb (occupied c) (covered c preds).

(** Every address of the chair map is in the store. *)
Definition wf (self : t) : Prop :=
  Forall (Forall (fun r => r < length (chairs self))) (_chair_map self).

Lemma with_chairs_id self : with_chairs self (chairs self) = self.
Proof. by destruct self. Qed.

Lemma with_chairs_twice self h h' :
  with_chairs (with_chairs self h) h' = with_chairs self h'.
Proof. done. Qed.

Lemma set_occupied_id c : set_occupied c (occupied c) = c.
Proof. by destruct c. Qed.

Lemma covered_settle preds c : covered (settle preds c) preds = covered c preds.
Proof. done. Qed.

Lemma settle_idemp preds c : settle preds (settle preds c) = settle preds c.
Proof. done. Qed.

Lemma flips_settle preds c : flips preds (settle preds c) = false.
Proof.
  unfold flips. rewrite covered_settle. unfold settle. cbn [occupied set_occupied].
  by destruct (covered c preds).
Qed.

Lemma flips_false_settle preds c : flips preds c = false -> settle preds c = c.
Proof.
  unfold flips, settle. intros H.
  assert (negb (covered c preds) = occupied c) as ->.
  { destruct (occupied c), (covered c preds); done. }
  apply set_occupied_id.
Qed.

Lemma point_settle preds c : point (settle preds c) = point c.
Proof. done. Qed.

Section one_chair.
Context (self : t) (line column : nat) (row : list nat) (r : nat) (c : Chair).
Hypothesis Hline : _chair_map self !! line = Some row.
Hypothesis Hcolumn : row !! column = Some r.
Hypothesis Hchair : chairs self !! r = Some c.

Lemma chair_ref_eq : chair_ref line column self = Some (r, self).
Proof using Hline Hcolumn.
  unfold chair_ref. msimpl. rewrite Hline. by rewrite Hcolumn.
Qed.

Lemma deref_eq : deref r self = Some (c, self).
Proof using Hchair. unfold deref. msimpl. by rewrite Hchair. Qed.

Lemma store_occupied_eq b :
  store_occupied r b self =
  Some (tt, with_chairs self (<[r := set_occupied c b]> (chairs self))).
Proof using Hchair. unfold store_occupied. msimpl. by rewrite Hchair. Qed.

Lemma scan_predictions_eq preds :
  scan_predictions line column preds self =
  if covered c preds then
    if occupied c
    then Some (Some true,
               with_chairs self (<[r := set_occupied c false]> (chairs self)))
    else Some (Some false, self)
  else Some (None, self).
Proof using Hline Hcolumn Hchair.
  induction preds as [|pred preds IH]; [done|].
  cbn [scan_predictions covered existsb].
  unfold mbind at 1, M_bind. rewrite chair_ref_eq.
  unfold mbind at 1, M_bind. rewrite deref_eq.
  destruct (inside c pred); cbn [orb].
  - destruct (occupied c); cbn [negb]; [|done].
    unfold mbind, M_bind. by rewrite store_occupied_eq.
  - apply IH.
Qed.

Lemma check_chair_occupied_eq detection :
  _check_chair_occupied line column detection self =
  Some (flips (predictions detection) c,
        with_chairs self
          (<[r := settle (predictions detection) c]> (chairs self))).
Proof using Hline Hcolumn Hchair.
  unfold _check_chair_occupied, flips, settle.
  unfold mbind at 1, M_bind. rewrite scan_predictions_eq.
  destruct (covered c (predictions detection)) eqn:Hcov,
           (occupied c) eqn:Hocc; cbn [negb Bool.eqb].
  - done.
  - msimpl. rewrite <- Hocc, set_occupied_id, list_insert_id by done.
    by rewrite with_chairs_id.
  - unfold mbind at 1, M_bind. rewrite chair_ref_eq.
    unfold mbind at 1, M_bind. rewrite deref_eq. rewrite Hocc.
    msimpl. rewrite <- Hocc, set_occupied_id, list_insert_id by done.
    by rewrite with_chairs_id.
  - unfold mbind at 1, M_bind. rewrite chair_ref_eq.
    unfold mbind at 1, M_bind. rewrite deref_eq. rewrite Hocc.
    unfold mbind, M_bind. by rewrite store_occupied_eq.
Qed.
End one_chair.

(** One visit of the chair at address [r], on the store and the flag
    [changed] of [_check_chair_map]. *)
Definition visit (preds : list Prediction) (st : list Chair * bool) (r : nat) :
    list Chair * bool :=
  match st.1 !! r with
  | Some c => (<[r := settle preds c]> st.1, if flips preds c then true else st.2)
  | None => st
  end.

Definition visit_all (preds : list Prediction) (rs : list nat)
    (st : list Chair * bool) : list Chair * bool :=
  fold_left (visit preds) rs st.

Lemma visit_length preds st r : length (visit preds st r).1 = length st.1.
Proof.
  unfold visit. destruct (st.1 !! r); [|done]. cbn. by rewrite length_insert.
Qed.

Lemma visit_all_length preds rs st :
  length (visit_all preds rs st).1 = length st.1.
Proof.
  revert st. induction rs as [|r rs IH]; intros st; [done|].
  cbn. unfold visit_all in IH. by rewrite IH, visit_length.
Qed.

Lemma visit_all_app preds rs rs' st :
  visit_all preds (rs ++ rs') st = visit_all preds rs' (visit_all preds rs st).
Proof. apply fold_left_app. Qed.

(** The inner loop of [_check_chair_map] on row [i], from column
    [length pre] on. *)
Lemma inner_loop_eq detection i suf : forall pre self changed,
  _chair_map self !! i = Some (pre ++ suf) ->
  Forall (fun r => r < length (chairs self)) suf ->
  foldM (fun (changed : bool) j =>
           c ← _check_chair_occupied i j detection;
           mret (if c : bool then true else changed))
        (seq (length pre) (length suf)) changed self =
  Some ((visit_all (predictions detection) suf (chairs self, changed)).2,
        with_chairs self
          (visit_all (predictions detection) suf (chairs self, changed)).1).
Proof.
  induction suf as [|r suf IH]; intros pre self changed Hrow Hwf.
  - cbn. by rewrite with_chairs_id.
  - apply Forall_cons in Hwf as [Hr Hwf].
    apply lookup_lt_is_Some in Hr as [c Hc].
    cbn [length seq]. rewrite foldM_cons, bind_eq.
    rewrite (check_chair_occupied_eq self i (length pre) _ r c Hrow); [|
      by rewrite list_lookup_middle | done].
    rewrite ret_eq.
    specialize (IH (pre ++ [r])
      (with_chairs self (<[r := settle (predictions detection) c]> (chairs self)))
      (if flips (predictions detection) c then true else changed)).
    rewrite length_app, Nat.add_1_r in IH. rewrite IH.
    + cbn [visit_all fold_left]. unfold visit at 2 4. cbn [fst snd]. rewrite Hc.
      done.
    + cbn. by rewrite <- app_assoc.
    + cbn. by rewrite length_insert.
Qed.

(** The outer loop, from row [length pre] on. *)
Lemma outer_loop_eq detection suf : forall pre self changed,
  _chair_map self = pre ++ suf ->
  Forall (Forall (fun r => r < length (chairs self))) suf ->
  foldM (fun (changed : bool) i =>
           self ← get;
           row ← lift (_chair_map self !! i);
           foldM (fun (changed : bool) j =>
                    c ← _check_chair_occupied i j detection;
                    mret (if c : bool then true else changed))
                 (seq 0 (length row)) changed)
        (seq (length pre) (length suf)) changed self =
  Some ((visit_all (predictions detection) (concat suf) (chairs self, changed)).2,
        with_chairs self
          (visit_all (predictions detection) (concat suf) (chairs self, changed)).1).
Proof.
  induction suf as [|row suf IH]; intros pre self changed Hmap Hwf.
  - cbn. by rewrite with_chairs_id.
  - apply Forall_cons in Hwf as [Hrow Hwf].
    assert (_chair_map self !! length pre = Some row) as Hlook.
    { rewrite Hmap. by rewrite list_lookup_middle. }
    cbn [length seq]. rewrite foldM_cons, bind_eq. unfold get at 1.
    rewrite bind_eq. unfold lift at 1. rewrite Hlook.
    pose proof (inner_loop_eq detection (length pre) row [] self changed
                  Hlook Hrow) as Hin.
    cbn [length] in Hin. rewrite Hin. clear Hin.
    set (st1 := visit_all (predictions detection) row (chairs self, changed)).
    specialize (IH (pre ++ [row]) (with_chairs self st1.1) st1.2).
    rewrite length_app, Nat.add_1_r in IH. rewrite IH.
    + cbn [concat]. rewrite visit_all_app. fold st1. cbn [chairs with_chairs].
      by destruct st1.
    + cbn. by rewrite <- app_assoc.
    + cbn. subst st1. rewrite visit_all_length. done.
Qed.

Lemma check_chair_map_eq detection self :
  wf self ->
  _check_chair_map detection self =
  Some ((visit_all (predictions detection) (concat (_chair_map self))
                   (chairs self, false)).2,
        with_chairs self
          (visit_all (predictions detection) (concat (_chair_map self))
                     (chairs self, false)).1).
Proof.
  intros Hwf. unfold _check_chair_map. rewrite bind_eq. unfold get at 1.
  by apply (outer_loop_eq detection (_chair_map self) [] self false).
Qed.

(** *** What a pass leaves in the store *)

Lemma visit_lookup preds st r r' :
  (visit preds st r).1 !! r' =
  if decide (r = r') then settle preds <$> st.1 !! r' else st.1 !! r'.
Proof.
  unfold visit. destruct (st.1 !! r) as [c|] eqn:Hc; cbn [fst].
  - case_decide as Hr.
    + subst r'. rewrite Hc. cbn.
      apply list_lookup_insert_eq. by eapply lookup_lt_Some.
    + by apply list_lookup_insert_ne.
  - case_decide; [|done]. subst r'. by rewrite Hc.
Qed.

Lemma visit_all_lookup preds rs : forall st r,
  (visit_all preds rs st).1 !! r =
  if decide (r ∈ rs) then settle preds <$> st.1 !! r else st.1 !! r.
Proof.
  induction rs as [|r0 rs IH]; intros st r.
  - case_decide as H; [|done]. by apply elem_of_nil in H.
  - cbn [visit_all fold_left]. unfold visit_all in IH. rewrite IH.
    rewrite visit_lookup.
    destruct (decide (r0 = r)) as [->|Hne].
    + rewrite (decide_True (P := r ∈ r :: rs)) by left.
      case_decide; [|done].
      destruct (st.1 !! r) as [c|]; [|done]. cbn. by rewrite settle_idemp.
    + destruct (decide (r ∈ rs)) as [Hin|Hnin].
      * by rewrite (decide_True (P := r ∈ r0 :: rs)) by (by right).
      * rewrite (decide_False (P := r ∈ r0 :: rs)); [done|].
        intros [?|?]%elem_of_cons; congruence.
Qed.

Lemma visit_all_points preds rs st :
  map point (visit_all preds rs st).1 = map point st.1.
Proof.
  apply list_eq. intros r. rewrite !list_lookup_fmap, visit_all_lookup.
  case_decide; [|done]. by destruct (st.1 !! r).
Qed.

Lemma visit_changed preds st r :
  (visit preds st r).2 = true <->
  st.2 = true \/ exists c, st.1 !! r = Some c /\ flips preds c = true.
Proof.
  unfold visit. destruct (st.1 !! r) as [c|] eqn:Hc; cbn [snd].
  - destruct (flips preds c) eqn:Hf.
    + split; [|done]. intros _. right. by exists c.
    + split; [by left|]. intros [?|(c' & [= <-] & ?)]; congruence.
  - split; [by left|]. by intros [?|(c' & ? & ?)].
Qed.

Lemma visit_all_changed preds rs : forall st,
  (visit_all preds rs st).2 = true <->
  st.2 = true \/
  exists r c, r ∈ rs /\ st.1 !! r = Some c /\ flips preds c = true.
Proof.
  induction rs as [|r0 rs IH]; intros st.
  - cbn. split; [by left|].
    intros [?|(r & c & H & _)]; [done|]. by apply elem_of_nil in H.
  - cbn [visit_all fold_left]. unfold visit_all in IH. rewrite IH.
    rewrite visit_changed. split.
    + intros [[?|(c & Hc & Hf)]|(r & c & Hin & Hc & Hf)].
      * by left.
      * right. exists r0, c. split; [left|done].
      * right. rewrite visit_lookup in Hc.
        destruct (decide (r0 = r)) as [->|Hne].
        -- destruct (st.1 !! r) as [c0|] eqn:Hc0; [|done].
           cbn in Hc. injection Hc as <-. by rewrite flips_settle in Hf.
        -- exists r, c. split; [by right|done].
    + intros [?|(r & c & Hin & Hc & Hf)]; [by left; left|].
      destruct (decide (r0 = r)) as [->|Hne].
      * left. right. by exists c.
      * right. exists r, c. split; [|split; [|done]].
        -- apply elem_of_cons in Hin as [?|?]; [congruence|done].
        -- rewrite visit_lookup. by rewrite decide_False.
Qed.

(** A pass over chairs that are all settled changes nothing. *)
Lemma visit_all_settled preds rs : forall st,
  (forall r c, r ∈ rs -> st.1 !! r = Some c -> flips preds c = false) ->
  visit_all preds rs st = st.
Proof.
  induction rs as [|r0 rs IH]; intros st Hs; [done|].
  cbn [visit_all fold_left]. unfold visit_all in IH.
  assert (visit preds st r0 = st) as ->.
  { unfold visit. destruct (st.1 !! r0) as [c|] eqn:Hc; [|done].
    rewrite (Hs r0 c) by (done || left).
    rewrite flips_false_settle by (apply (Hs r0); [left|done]).
    rewrite list_insert_id by done. by destruct st. }
  apply IH. intros r c Hin. apply Hs. by right.
Qed.

(** After a pass every chair of the map is settled. *)
Lemma visit_all_settles preds rs st r c :
  r ∈ rs -> (visit_all preds rs st).1 !! r = Some c -> flips preds c = false.
Proof.
  intros Hin. rewrite visit_all_lookup, decide_True by done.
  destruct (st.1 !! r) as [c0|]; [|done]. cbn. intros [= <-].
  apply flips_settle.
Qed.

End Pass.

(** ** The overlay *)

Module Overlay.
Import RoIBusinessLogic Pass.

(** The chairs a row of addresses refers to. *)
Definition row_chairs (h : list Chair) (row : list nat) : list Chair :=
  omap (h !!.) row.

(** The chair map as rows of chairs. *)
Definition chair_rows (self : t) : list (list Chair) :=
  map (row_chairs (chairs self)) (_chair_map self).

Definition count_occupied (cs : list Chair) : nat :=
  length (filter (fun c => Is_true (occupied c)) cs).

(** The prediction [_add_count] returns. *)
Definition summary (self : t) : Prediction :=
  {| classId :=
       count_label (_chair_count self)
                   (Z.of_nat (count_occupied (concat (chair_rows self))));
     trackId := Some "";
     confidence := 9 # 10;
     boundingBox := unit_box;
     related := [] |}.

(** The marker of a chair of row [i]. *)
Definition marker (i : nat) (c : Chair) : Prediction :=
  _create_point c (marker_name i (occupied c)).

(** The markers of all rows, row by row. *)
Definition markers (self : t) : list Prediction :=
  concat (imap (fun i row => map (marker i) row) (chair_rows self)).

Definition append_all (detection : Detection) (ps : list Prediction) : Detection :=
  {| predictions := predictions detection ++ ps;
     frameMetadata := frameMetadata detection |}.

Lemma append_all_nil detection : append_all detection [] = detection.
Proof. destruct detection. unfold append_all. cbn. by rewrite app_nil_r. Qed.

Lemma append_all_app detection ps ps' :
  append_all (append_all detection ps) ps' = append_all detection (ps ++ ps').
Proof. unfold append_all. cbn. by rewrite app_assoc. Qed.

Lemma append_prediction_all detection p :
  append_prediction detection p = append_all detection [p].
Proof. done. Qed.

Lemma row_chairs_cons h r row c :
  h !! r = Some c -> row_chairs h (r :: row) = c :: row_chairs h row.
Proof. intros H. unfold row_chairs. cbn. by rewrite H. Qed.

Lemma row_chairs_length h row :
  Forall (fun r => r < length h) row -> length (row_chairs h row) = length row.
Proof.
  induction 1 as [|r row Hr _ IH]; [done|].
  apply lookup_lt_is_Some in Hr as [c Hc].
  rewrite (row_chairs_cons _ _ _ _ Hc). cbn. by rewrite IH.
Qed.

Lemma count_occupied_cons c cs :
  count_occupied (c :: cs) =
  if occupied c then S (count_occupied cs) else count_occupied cs.
Proof.
  unfold count_occupied. rewrite filter_cons.
  destruct (occupied c); by case_decide.
Qed.

Lemma count_occupied_app cs cs' :
  count_occupied (cs ++ cs') = count_occupied cs + count_occupied cs'.
Proof. unfold count_occupied. by rewrite filter_app, length_app. Qed.

Section loops.
Context (self : t).

Lemma count_row_eq line : forall n,
  Forall (fun r => r < length (chairs self)) line ->
  foldM (fun n r =>
           chair ← deref r;
           mret (if occupied chair then (n + 1)%Z else n)) line n self =
  Some ((n + Z.of_nat (count_occupied (row_chairs (chairs self) line)))%Z,
        self).
Proof.
  induction line as [|r line IH]; intros n Hwf.
  - rewrite foldM_nil. do 2 f_equal. cbn. lia.
  - apply Forall_cons in Hwf as [Hr Hwf].
    apply lookup_lt_is_Some in Hr as [c Hc].
    rewrite foldM_cons, bind_eq. unfold deref. rewrite bind_eq.
    unfold get at 1. unfold lift at 1. rewrite Hc, ret_eq.
    rewrite IH by done. rewrite (row_chairs_cons _ _ _ _ Hc).
    rewrite count_occupied_cons. do 2 f_equal.
    destruct (occupied c); lia.
Qed.

Lemma count_rows_eq rows : forall n,
  Forall (Forall (fun r => r < length (chairs self))) rows ->
  foldM (fun n line =>
           foldM (fun n r =>
                    chair ← deref r;
                    mret (if occupied chair then (n + 1)%Z else n)) line n)
        rows n self =
  Some ((n + Z.of_nat (count_occupied
                         (concat (map (row_chairs (chairs self)) rows))))%Z,
        self).
Proof.
  induction rows as [|row rows IH]; intros n Hwf.
  - rewrite foldM_nil. do 2 f_equal. cbn. lia.
  - apply Forall_cons in Hwf as [Hrow Hwf].
    rewrite foldM_cons, count_row_eq by done. rewrite IH by done.
    cbn [map concat]. rewrite count_occupied_app. do 2 f_equal. lia.
Qed.

Lemma add_count_eq : wf self -> _add_count self = Some (summary self, self).
Proof.
  intros Hwf. unfold _add_count. rewrite bind_eq. unfold get at 1.
  rewrite bind_eq, count_rows_eq by done. by rewrite ret_eq.
Qed.

Lemma marker_row_eq i row : forall detection,
  Forall (fun r => r < length (chairs self)) row ->
  foldM (fun detection r =>
           point_ ← deref r;
           mret (append_prediction detection
                   (_create_point point_ (marker_name i (occupied point_)))))
        row detection self =
  Some (append_all detection (map (marker i) (row_chairs (chairs self) row)),
        self).
Proof.
  induction row as [|r row IH]; intros detection Hwf.
  - rewrite foldM_nil. cbn. by rewrite append_all_nil.
  - apply Forall_cons in Hwf as [Hr Hwf].
    apply lookup_lt_is_Some in Hr as [c Hc].
    rewrite foldM_cons, bind_eq. unfold deref. rewrite bind_eq.
    unfold get at 1. unfold lift at 1. rewrite Hc, ret_eq.
    rewrite IH by done. rewrite (row_chairs_cons _ _ _ _ Hc).
    by rewrite append_prediction_all, append_all_app.
Qed.

Lemma marker_rows_eq suf : forall pre detection,
  _chair_map self = pre ++ suf ->
  Forall (Forall (fun r => r < length (chairs self))) suf ->
  foldM (fun detection i =>
           self ← get;
           row ← lift (_chair_map self !! i);
           foldM (fun detection r =>
                    point_ ← deref r;
                    mret (append_prediction detection
                            (_create_point point_
                               (marker_name i (occupied point_)))))
                 row detection)
        (seq (length pre) (length suf)) detection self =
  Some (append_all detection
          (concat (imap (fun k row => map (marker (length pre + k)) row)
                        (map (row_chairs (chairs self)) suf))),
        self).
Proof.
  induction suf as [|row suf IH]; intros pre detection Hmap Hwf.
  - cbn [length seq]. rewrite foldM_nil. cbn. by rewrite append_all_nil.
  - apply Forall_cons in Hwf as [Hrow Hwf].
    assert (_chair_map self !! length pre = Some row) as Hlook.
    { rewrite Hmap. by rewrite list_lookup_middle. }
    cbn [length seq]. rewrite foldM_cons, bind_eq. unfold get at 1.
    rewrite bind_eq. unfold lift at 1. rewrite Hlook.
    rewrite marker_row_eq by done.
    specialize (IH (pre ++ [row])). rewrite length_app, Nat.add_1_r in IH.
    rewrite IH; [|by rewrite <- app_assoc|done].
    rewrite append_all_app. cbn [map imap concat]. rewrite Nat.add_0_r.
    do 4 f_equal. apply (f_equal (@concat _)), imap_ext. intros k rw _. cbn.
    by rewrite Nat.add_succ_r.
Qed.

Lemma insert_info_eq detection :
  wf self ->
  _insert_info detection self =
  Some (append_all detection (summary self :: markers self), self).
Proof.
  intros Hwf. unfold _insert_info. rewrite bind_eq, add_count_eq by done.
  rewrite bind_eq. unfold get at 1.
  rewrite (marker_rows_eq (_chair_map self) []) by done.
  by rewrite append_prediction_all, append_all_app.
Qed.
End loops.

End Overlay.

(** ** Calibration *)

Module Calibration.
Import RoIBusinessLogic.

Lemma fold_left_ext_in {A B} (f g : A -> B -> A) (l : list B) : forall a,
  (forall a x, x ∈ l -> f a x = g a x) -> fold_left f l a = fold_left g l a.
Proof.
  induction l as [|x l IH]; intros a H; [done|].
  cbn. rewrite H by left. apply IH. intros a' x' Hx'. apply H. by right.
Qed.

(** *** Removing the short rows *)

Section pop.
Context {A : Type}.
Implicit Types (m : list (list A)) (row : list A).

(** A list of indices that decreases strictly and starts below [n]. *)
Fixpoint descending (n : nat) (remove : list nat) : Prop :=
  match remove with
  | [] => True
  | i :: remove' => i < n /\ descending i remove'
  end.

Lemma descending_mono n n' remove :
  n <= n' -> descending n remove -> descending n' remove.
Proof. destruct remove as [|i remove]; cbn; [done|]. intros ? [? ?]. split; [lia|done]. Qed.

Lemma rows_to_remove_snoc m row :
  rows_to_remove (m ++ [row]) =
  (if (length row <=? 4)%nat then [length m] else []) ++ rows_to_remove m.
Proof.
  unfold rows_to_remove. rewrite length_app. cbn [length].
  rewrite Nat.add_1_r, seq_S, fold_left_app. cbn [fold_left Nat.add].
  rewrite (fold_left_ext_in _ (note_short_row m)).
  - unfold note_short_row at 1. rewrite list_lookup_middle by done.
    by destruct (length row <=? 4)%nat.
  - intros a i [_ Hi]%elem_of_seq. unfold note_short_row.
    by rewrite lookup_app_l by lia.
Qed.

Lemma rows_to_remove_descending m : descending (length m) (rows_to_remove m).
Proof.
  induction m as [|row m IH] using rev_ind; [done|].
  rewrite rows_to_remove_snoc, length_app. cbn [length].
  destruct (length row <=? 4)%nat; cbn [app descending].
  - split; [lia|done].
  - eapply descending_mono; [|done]. lia.
Qed.

Lemma delete_app_lt m m' i :
  i < length m -> delete i (m ++ m') = delete i m ++ m'.
Proof.
  revert i. induction m as [|row m IH]; intros i Hi; cbn in *; [lia|].
  destruct i as [|i]; [done|]. cbn. f_equal. apply IH. lia.
Qed.

Lemma pop_rows_app remove : forall m m',
  descending (length m) remove ->
  pop_rows remove (m ++ m') = pop_rows remove m ++ m'.
Proof.
  induction remove as [|i remove IH]; intros m m' Hd; [done|].
  destruct Hd as [Hi Hd]. cbn [pop_rows fold_left].
  rewrite delete_app_lt by done. apply IH.
  eapply descending_mono; [|done].
  rewrite length_delete by (by apply lookup_lt_is_Some). lia.
Qed.

(** The two loops on [remove] keep exactly the rows of 5 chairs or more,
    in their order. *)
Lemma pop_rows_filter m :
  pop_rows (rows_to_remove m) m = filter (fun row => 5 <= length row) m.
Proof.
  induction m as [|row m IH] using rev_ind; [done|].
  rewrite rows_to_remove_snoc, filter_app, filter_cons, filter_nil.
  destruct (length row <=? 4)%nat eqn:Hlen.
  - apply Nat.leb_le in Hlen. rewrite decide_False by lia.
    cbn [app pop_rows fold_left].
    rewrite delete_middle, !app_nil_r. apply IH.
  - apply Nat.leb_gt in Hlen. rewrite decide_True by lia.
    cbn [app]. rewrite pop_rows_app by apply rows_to_remove_descending.
    by rewrite IH.
Qed.
End pop.

(** *** Clustering into rows *)

(** The row at index [i] after the first [k] turns of the inner loop. *)
Definition joined (chair : nat * Chair) (main_chairs : list (nat * Chair))
    (k i : nat) (row : list (nat * Chair)) : list (nat * Chair) :=
  match main_chairs !! i with
  | Some main =>
      if bool_decide (i < k) && same_line chair main then row ++ [chair] else row
  | None => row
  end.

Lemma add_to_lines_upto chair main_chairs matrix_chairs k :
  k <= length main_chairs ->
  let st := fold_left (add_to_line chair main_chairs) (seq 0 k)
                      (matrix_chairs, false) in
  (forall i, st.1 !! i = joined chair main_chairs k i <$> matrix_chairs !! i) /\
  st.2 = existsb (same_line chair) (take k main_chairs).
Proof.
  induction k as [|k IH]; intros Hk; cbn zeta.
  - cbn. split; [|done]. intros i. unfold joined.
    destruct (matrix_chairs !! i) as [row|]; [|done]. cbn.
    by destruct (main_chairs !! i).
  - rewrite seq_S, fold_left_app. cbn [fold_left Nat.add].
    destruct IH as [IH1 IH2]; [lia|].
    destruct (fold_left (add_to_line chair main_chairs) (seq 0 k)
                        (matrix_chairs, false)) as [mx added].
    cbn [fst snd] in *. subst added.
    destruct (lookup_lt_is_Some_2 main_chairs k) as [main Hmain]; [lia|].
    unfold add_to_line. rewrite Hmain.
    rewrite (take_S_r _ _ _ Hmain), existsb_app. cbn [existsb].
    assert (forall i, i <> k ->
              joined chair main_chairs (S k) i = joined chair main_chairs k i)
      as Hother.
    { intros i Hi. unfold joined. destruct (main_chairs !! i); [|done].
      destruct (decide (i < k)).
      - by rewrite !bool_decide_eq_true_2 by lia.
      - by rewrite !bool_decide_eq_false_2 by lia. }
    destruct (same_line chair main) eqn:Hsame; cbn [fst snd].
    + split; [|by rewrite orb_true_r]. intros i.
      destruct (decide (k = i)) as [<-|Hne].
      * rewrite list_lookup_alter_eq, IH1.
        destruct (matrix_chairs !! k) as [row|]; [|done]. cbn.
        unfold joined. rewrite Hmain, Hsame.
        rewrite bool_decide_eq_false_2 by lia.
        by rewrite bool_decide_eq_true_2 by lia.
      * rewrite list_lookup_alter_ne, IH1 by done. by rewrite Hother.
    + split; [|by rewrite !orb_false_r]. intros i. rewrite IH1.
      destruct (decide (i = k)) as [->|Hne]; [|by rewrite Hother].
      destruct (matrix_chairs !! k) as [row|]; [|done]. cbn.
      unfold joined. by rewrite Hmain, Hsame, !andb_false_r.
Qed.

(** The inner loop as a whole: the chair is appended to every row whose
    anchor it matches, and [added] tells whether there was one. *)
Lemma add_to_lines_lookup chair main_chairs matrix_chairs i :
  (add_to_lines chair main_chairs matrix_chairs).1 !! i =
  joined chair main_chairs (length main_chairs) i <$> matrix_chairs !! i.
Proof. by apply (add_to_lines_upto chair main_chairs matrix_chairs). Qed.

Lemma add_to_lines_added chair main_chairs matrix_chairs :
  (add_to_lines chair main_chairs matrix_chairs).2 =
  existsb (same_line chair) main_chairs.
Proof.
  unfold add_to_lines.
  destruct (add_to_lines_upto chair main_chairs matrix_chairs
              (length main_chairs)) as [_ ->]; [done|].
  by rewrite firstn_all.
Qed.

Lemma add_to_lines_length chair main_chairs matrix_chairs :
  length (add_to_lines chair main_chairs matrix_chairs).1 = length matrix_chairs.
Proof.
  apply Nat.le_antisymm.
  - apply Nat.nlt_ge. intros Hlt.
    destruct (lookup_lt_is_Some_2
                (add_to_lines chair main_chairs matrix_chairs).1
                (length matrix_chairs)) as [row Hrow]; [lia|].
    rewrite add_to_lines_lookup in Hrow.
    by rewrite lookup_ge_None_2 in Hrow.
  - apply Nat.nlt_ge. intros Hlt.
    destruct (lookup_lt_is_Some_2 matrix_chairs
                (length (add_to_lines chair main_chairs matrix_chairs).1))
      as [row Hrow]; [lia|].
    pose proof (add_to_lines_lookup chair main_chairs matrix_chairs
                  (length (add_to_lines chair main_chairs matrix_chairs).1))
      as Hl.
    rewrite Hrow in Hl. by rewrite lookup_ge_None_2 in Hl.
Qed.

Lemma joined_all chair main_chairs i row main :
  main_chairs !! i = Some main ->
  joined chair main_chairs (length main_chairs) i row =
  if same_line chair main then row ++ [chair] else row.
Proof.
  intros Hmain. unfold joined. rewrite Hmain.
  by rewrite bool_decide_eq_true_2 by (by eapply lookup_lt_Some).
Qed.

Lemma add_to_lines_none chair main_chairs matrix_chairs :
  existsb (same_line chair) main_chairs = false ->
  (add_to_lines chair main_chairs matrix_chairs).1 = matrix_chairs.
Proof.
  intros Hnone. apply list_eq. intros i. rewrite add_to_lines_lookup.
  destruct (matrix_chairs !! i) as [row|]; [|done]. cbn. f_equal.
  unfold joined. destruct (main_chairs !! i) as [main|] eqn:Hmain; [|done].
  assert (same_line chair main = false) as ->; [|by rewrite andb_false_r].
  destruct (same_line chair main) eqn:Hsame; [|done].
  rewrite <- Hnone. symmetry. apply existsb_exists. exists main.
  split; [|done]. apply list_elem_of_In. by eapply list_elem_of_lookup_2.
Qed.

(** One turn of the outer loop. *)
Lemma place_chair_eq matrix_chairs main_chairs chair :
  place_chair (matrix_chairs, main_chairs) chair =
  if existsb (same_line chair) main_chairs
  then ((add_to_lines chair main_chairs matrix_chairs).1, main_chairs)
  else (matrix_chairs ++ [[chair]], main_chairs ++ [chair]).
Proof.
  unfold place_chair. destruct main_chairs as [|main mains]; [done|].
  pose proof (add_to_lines_added chair (main :: mains) matrix_chairs) as Hadd.
  pose proof (add_to_lines_none chair (main :: mains) matrix_chairs) as Hnone.
  destruct (add_to_lines chair (main :: mains) matrix_chairs) as [mx added].
  cbn [fst snd] in *. subst added.
  destruct (existsb (same_line chair) (main :: mains)); [done|].
  by rewrite Hnone.
Qed.

Lemma lines_of_snoc cs chair :
  lines_of (cs ++ [chair]) = place_chair (lines_of cs) chair.
Proof. unfold lines_of. by rewrite fold_left_app. Qed.

(** The loop invariant: as many anchors as rows, each row starts with its
    anchor, and the rows hold chairs of the frame only. *)
Record lines_inv (cs : list (nat * Chair))
    (st : list (list (nat * Chair)) * list (nat * Chair)) : Prop := {
  inv_length : length st.1 = length st.2;
  inv_anchor : forall i row, st.1 !! i = Some row -> head row = st.2 !! i;
  inv_nonempty : forall i row, st.1 !! i = Some row -> row <> [];
  inv_members : forall i row c, st.1 !! i = Some row -> c ∈ row -> c ∈ cs
}.

Lemma place_chair_inv cs st chair :
  lines_inv cs st -> lines_inv (cs ++ [chair]) (place_chair st chair).
Proof.
  destruct st as [matrix_chairs main_chairs]. intros [Hlen Hanc Hne Hmem].
  cbn [fst snd] in *. rewrite place_chair_eq.
  destruct (existsb (same_line chair) main_chairs) eqn:Hex.
  - split; cbn [fst snd].
    + by rewrite add_to_lines_length.
    + intros i row. rewrite add_to_lines_lookup.
      destruct (matrix_chairs !! i) as [row0|] eqn:Hrow0; [|done].
      cbn. intros [= <-]. rewrite <- (Hanc i row0 Hrow0).
      unfold joined. destruct (main_chairs !! i); [|done].
      destruct (_ && _); [|done].
      rewrite head_app. specialize (Hne i row0 Hrow0).
      by destruct row0.
    + intros i row. rewrite add_to_lines_lookup.
      destruct (matrix_chairs !! i) as [row0|] eqn:Hrow0; [|done].
      cbn. intros [= <-]. unfold joined. specialize (Hne i row0 Hrow0).
      destruct (main_chairs !! i); [|done].
      destruct (_ && _); [|done]. by destruct row0.
    + intros i row c. rewrite add_to_lines_lookup.
      destruct (matrix_chairs !! i) as [row0|] eqn:Hrow0; [|done].
      cbn. intros [= <-] Hc. apply elem_of_app.
      unfold joined in Hc. destruct (main_chairs !! i).
      * destruct (_ && _).
        -- apply elem_of_app in Hc as [Hc|Hc]; [left; by eapply Hmem|by right].
        -- left. by eapply Hmem.
      * left. by eapply Hmem.
  - split; cbn [fst snd].
    + rewrite !length_app. cbn. lia.
    + intros i row Hrow. destruct (decide (i < length matrix_chairs)).
      * rewrite lookup_app_l in Hrow by lia.
        rewrite lookup_app_l by lia. by apply Hanc.
      * rewrite lookup_app_r in Hrow by lia. rewrite lookup_app_r by lia.
        rewrite <- Hlen.
        destruct (i - length matrix_chairs) as [|k]; [|done].
        by injection Hrow as <-.
    + intros i row Hrow. destruct (decide (i < length matrix_chairs)).
      * rewrite lookup_app_l in Hrow by lia. by eapply Hne.
      * rewrite lookup_app_r in Hrow by lia.
        destruct (i - length matrix_chairs) as [|k]; [|done].
        by injection Hrow as <-.
    + intros i row c Hrow Hc. apply elem_of_app.
      destruct (decide (i < length matrix_chairs)).
      * rewrite lookup_app_l in Hrow by lia. left. by eapply Hmem.
      * rewrite lookup_app_r in Hrow by lia.
        destruct (i - length matrix_chairs) as [|k]; [|done].
        injection Hrow as <-. by right.
Qed.

Lemma lines_of_inv cs : lines_inv cs (lines_of cs).
Proof.
  induction cs as [|chair cs IH] using rev_ind.
  - split; cbn; try done.
  - rewrite lines_of_snoc. by apply place_chair_inv.
Qed.

End Calibration.

(** ** [process], frame by frame *)

Module Frames.
Import RoIBusinessLogic Pass Overlay Calibration.

(** The detection after [_insert_info], in the state [self]. *)
Definition annotate (self : t) (detection : Detection) : Detection :=
  append_all detection (summary self :: markers self).

(** The state a calibration frame leaves. *)
Definition calibrated (self : t) (detection : Detection) : t :=
  {| _chair_count :=
       fold_left (fun n lines => (n + Z.of_nat (length lines))%Z)
                 (_create_chair_map detection) (_chair_count self);
     _chair_map := map (map fst) (_create_chair_map detection);
     chairs := map snd (new_chairs detection) |}.

(** The state a steady-state frame leaves, and whether a chair changed. *)
Definition pass (self : t) (detection : Detection) : list Chair * bool :=
  visit_all (predictions detection) (concat (_chair_map self))
            (chairs self, false).

Lemma create_chair_map_filter detection :
  _create_chair_map detection =
  filter (fun row => 5 <= length row) (lines_of (new_chairs detection)).1.
Proof. apply pop_rows_filter. Qed.

Lemma new_chairs_fst detection c :
  c ∈ new_chairs detection -> c.1 < length (predictions detection).
Proof.
  intros (k & Hk)%list_elem_of_lookup. unfold new_chairs in Hk.
  apply list_lookup_imap_Some in Hk as (p & Hp & ->). cbn.
  by eapply lookup_lt_Some.
Qed.

Lemma create_chair_map_members detection row c :
  row ∈ _create_chair_map detection -> c ∈ row -> c ∈ new_chairs detection.
Proof.
  rewrite create_chair_map_filter. intros [_ Hrow]%list_elem_of_filter Hc.
  apply list_elem_of_lookup in Hrow as [i Hi].
  by eapply (inv_members _ _ (lines_of_inv (new_chairs detection))).
Qed.

Lemma wf_calibrated self detection : wf (calibrated self detection).
Proof.
  unfold wf, calibrated. cbn [_chair_map chairs].
  apply Forall_forall. intros rs (row & -> & Hrow)%list_elem_of_fmap.
  apply Forall_forall. intros r (c & -> & Hc)%list_elem_of_fmap.
  rewrite length_map. unfold new_chairs at 1. rewrite length_imap.
  eapply new_chairs_fst, create_chair_map_members; done.
Qed.

Lemma wf_with_chairs self h :
  wf self -> length h = length (chairs self) -> wf (with_chairs self h).
Proof. unfold wf. cbn. by intros ? ->. Qed.

Lemma wf_pass self detection :
  wf self -> wf (with_chairs self (pass self detection).1).
Proof.
  intros Hwf. apply wf_with_chairs; [done|]. unfold pass.
  by rewrite visit_all_length.
Qed.

Lemma process_calibration event_id detection self :
  _chair_map self = [] ->
  process event_id detection self =
  let self' := calibrated self detection in
  Some ((annotate self' detection,
         Some [EventStartedSignal event_id (annotate self' detection);
               EventEndedSignal event_id (annotate self' detection)]),
        self').
Proof.
  intros Hmap. unfold process. rewrite bind_eq. unfold get at 1. rewrite Hmap.
  rewrite bind_eq. unfold put at 1. fold (calibrated self detection).
  rewrite bind_eq, insert_info_eq by apply wf_calibrated.
  by rewrite ret_eq.
Qed.

Lemma process_steady event_id detection self :
  _chair_map self <> [] -> wf self ->
  process event_id detection self =
  let self' := with_chairs self (pass self detection).1 in
  if (pass self detection).2
  then Some ((annotate self' detection,
              Some [EventStartedSignal event_id (annotate self' detection);
                    EventEndedSignal event_id (annotate self' detection)]),
             self')
  else Some ((detection, None), self').
Proof.
  intros Hmap Hwf.
  pose proof (check_chair_map_eq detection self Hwf) as Hcheck.
  fold (pass self detection) in Hcheck.
  pose proof (wf_pass self detection Hwf) as Hwf'.
  unfold process. rewrite bind_eq. unfold get at 1.
  destruct (_chair_map self) as [|row rows]; [done|].
  rewrite bind_eq, Hcheck. cbn zeta.
  destruct (pass self detection).2; [|done].
  rewrite bind_eq, insert_info_eq by done. by rewrite ret_eq.
Qed.

Lemma count_lines {A} (matrix : list (list A)) : forall n,
  fold_left (fun n lines => (n + Z.of_nat (length lines))%Z) matrix n =
  (n + Z.of_nat (length (concat matrix)))%Z.
Proof.
  induction matrix as [|row matrix IH]; intros n; cbn; [lia|].
  rewrite IH, length_app. lia.
Qed.

Lemma concat_map_map {A B} (f : A -> B) (ll : list (list A)) :
  concat (map (map f) ll) = map f (concat ll).
Proof.
  induction ll as [|l ll IH]; [done|]. cbn. by rewrite IH, map_app.
Qed.

(** The states an instance goes through: [__init__], then calls of
    [process] that return. *)
Inductive reachable : t -> Prop :=
| reach_init : reachable init
| reach_process self event_id detection out self' :
    reachable self ->
    process event_id detection self = Some (out, self') ->
    reachable self'.

(** The count is the number of chairs of the map, in every state. *)
Definition counted (self : t) : Prop :=
  _chair_count self = Z.of_nat (length (concat (_chair_map self))).

Lemma process_keeps event_id detection self out self' :
  wf self -> counted self ->
  process event_id detection self = Some (out, self') ->
  wf self' /\ counted self'.
Proof.
  intros Hwf Hcount.
  destruct (decide (_chair_map self = [])) as [Hmap|Hmap].
  - rewrite process_calibration by done. cbn zeta. intros [= _ <-].
    split; [apply wf_calibrated|].
    unfold counted, calibrated. cbn [_chair_count _chair_map].
    rewrite count_lines, concat_map_map, length_map.
    unfold counted in Hcount. rewrite Hmap in Hcount. cbn in Hcount. lia.
  - rewrite process_steady by done. cbn zeta.
    destruct (pass self detection).2; intros [= _ <-];
      (split; [by apply wf_pass|done]).
Qed.

Lemma reachable_wf self : reachable self -> wf self /\ counted self.
Proof.
  induction 1 as [|self event_id detection out self' _ [IHwf IHc] Hstep].
  - split; [by apply Forall_nil|done].
  - by eapply process_keeps.
Qed.

(** [process] always returns on a well-formed state. *)
Lemma process_total event_id detection self :
  wf self -> is_Some (process event_id detection self).
Proof.
  intros Hwf. destruct (decide (_chair_map self = [])) as [Hmap|Hmap].
  - by rewrite process_calibration.
  - rewrite process_steady by done. cbn zeta.
    by destruct (pass self detection).2.
Qed.

End Frames.

(** ** Sample frames and states *)

Module Samples.
Import RoIBusinessLogic.

Definition box (x0 y0 x1 y1 : Q) : BoundingBox :=
  {| type := "quadrilateral";
     coord0 := mkPoint x0 y0;
     coord1 := mkPoint x1 y0;
     coord2 := mkPoint x1 y1;
     coord3 := mkPoint x0 y1 |}.

(** A prediction of the detector, relabelled by the class filter. *)
Definition chair_pred (x0 y0 x1 y1 : Q) : Prediction :=
  {| classId := "chair";
     trackId := None;
     confidence := 1 # 2;
     boundingBox := box x0 y0 x1 y1;
     related := [] |}.

Definition frame (ps : list Prediction) : Detection :=
  {| predictions := ps; frameMetadata := "" |}.

(** Five chairs in one row, with centers (25, 25), (125, 25), .. *)
Definition five_chairs : Detection :=
  frame [chair_pred 0 0 50 50; chair_pred 100 0 150 50;
         chair_pred 200 0 250 50; chair_pred 300 0 350 50;
         chair_pred 400 0 450 50].

(** No chair is seen. *)
Definition no_chairs : Detection := frame [].

(** Two rows of three chairs, 100 pixels apart. *)
Definition two_short_rows : Detection :=
  frame [chair_pred 0 0 50 50; chair_pred 100 0 150 50;
         chair_pred 200 0 250 50; chair_pred 0 100 50 150;
         chair_pred 100 100 150 150; chair_pred 200 100 250 150].

Definition state_after (frames : list (string * Detection)) : t :=
  fold_left (fun self '(event_id, detection) =>
               match process event_id detection self with
               | Some (_, self') => self'
               | None => self
               end) frames init.

(** The state after calibration on [five_chairs]: five free chairs. *)
Definition five_free : t :=
  Eval vm_compute in state_after [("e1", five_chairs)].

(** The state after a further frame without chairs: all five occupied. *)
Definition five_occupied : t :=
  Eval vm_compute in state_after [("e1", five_chairs); ("e2", no_chairs)].

(** The floats that Python writes 0.3, 55.3, 0.1 and 1.9. *)
Definition float_0_3 : Q := 5404319552844595 # 18014398509481984.
Definition float_55_3 : Q := 3891391553024819 # 70368744177664.
Definition float_0_1 : Q := 3602879701896397 # 36028797018963968.
Definition float_1_9 : Q := 4278419646001971 # 2251799813685248.

(** Two chairs with centers (1, 0.3) and (1, 55.3); the corners are floats,
    and the differences, halves and sums of the centers are exact. *)
Definition two_rows_at_55 : Detection :=
  frame [chair_pred 0 (float_0_3 - (1 # 8)) 2 (float_0_3 + (1 # 8));
         chair_pred 0 (float_55_3 - 1) 2 (float_55_3 + 1)].

End Samples.

Import RoIBusinessLogic Pass Overlay Calibration Frames.

Lemma Forall_lt_dec (n : nat) (l : list nat) :
  forallb (fun r => r <? n)%nat l = true -> Forall (fun r => r < n) l.
Proof.
  intros H. apply Forall_forall. intros r Hr%list_elem_of_In.
  rewrite forallb_forall in H. by apply Nat.ltb_lt, H.
Defined.

Lemma elem_of_concat {A} (a : A) (ls : list (list A)) :
  a ∈ concat ls <-> exists l, a ∈ l /\ l ∈ ls.
Proof.
  rewrite list_elem_of_In, in_concat. split.
  - intros (l & Hl & Ha). exists l. by rewrite !list_elem_of_In.
  - intros (l & Ha & Hl). exists l. by rewrite <- !list_elem_of_In.
Qed.

(** Well-formedness is decided by evaluation. *)
Lemma wf_dec (self : t) :
  forallb (forallb (fun r => r <? length (chairs self))%nat) (_chair_map self)
  = true -> wf self.
Proof.
  intros H. apply Forall_forall. intros row Hrow%list_elem_of_In.
  rewrite forallb_forall in H. by apply Forall_lt_dec, H.
Defined.

(** ** The claims *)

(** *** C10: the coverage test is inclusive at the four edges *)

Lemma inside_iff (chair : Chair) (pred : Prediction) :
  inside chair pred = true <->
  (x (coord0 (boundingBox pred)) <= x (point chair) /\
   x (point chair) <= x (coord1 (boundingBox pred)) /\
   y (coord1 (boundingBox pred)) <= y (point chair) /\
   y (point chair) <= y (coord2 (boundingBox pred)))%Q.
Proof.
  unfold inside, Qgeb, Qleb. rewrite !andb_true_iff, !Qle_bool_iff. tauto.
Qed.

(** C10.  In the steady-state test a chair is covered by a prediction exactly
    when its x lies between the x of corners 0 and 1 and its y between the y
    of corners 1 and 2, all four bounds included: a chair on the left, right,
    top or bottom edge of the box is covered. *)
Theorem C10_inside_inclusive (chair : Chair) (pred : Prediction) :
  let b := boundingBox pred in
  let cx := x (point chair) in
  let cy := y (point chair) in
  ((inside chair pred = true <->
    x (coord0 b) <= cx /\ cx <= x (coord1 b) /\
    y (coord1 b) <= cy /\ cy <= y (coord2 b)) /\
   (cx == x (coord0 b) -> cx <= x (coord1 b) ->
    y (coord1 b) <= cy -> cy <= y (coord2 b) -> inside chair pred = true) /\
   (cx == x (coord1 b) -> x (coord0 b) <= cx ->
    y (coord1 b) <= cy -> cy <= y (coord2 b) -> inside chair pred = true) /\
   (cy == y (coord1 b) -> cy <= y (coord2 b) ->
    x (coord0 b) <= cx -> cx <= x (coord1 b) -> inside chair pred = true) /\
   (cy == y (coord2 b) -> y (coord1 b) <= cy ->
    x (coord0 b) <= cx -> cx <= x (coord1 b) -> inside chair pred = true))%Q.
Proof.
  cbn zeta. split; [apply inside_iff|].
  repeat split; intros; apply inside_iff; repeat split; lra.
Qed.

(** A chair on the top-left corner of a box, and one on its bottom-right
    corner, are covered. *)
Lemma C10_inside_inclusive_witness :
  inside (mkChair (mkPoint 100 0) true) (Samples.chair_pred 100 0 150 50) = true /\
  inside (mkChair (mkPoint 150 50) true) (Samples.chair_pred 100 0 150 50) = true.
Proof.
  split.
  - apply (proj1 (proj2 (C10_inside_inclusive (mkChair (mkPoint 100 0) true)
                           (Samples.chair_pred 100 0 150 50)))); cbn; lra.
  - apply (proj1 (C10_inside_inclusive (mkChair (mkPoint 150 50) true)
                    (Samples.chair_pred 100 0 150 50))); cbn.
    repeat split; lra.
Defined.

(** *** C1: the transition rule of the steady state *)

(** The rule in the words of the specification, as (occupied', changed):
    an occupied chair that is not covered is vacated, a free chair that is
    covered becomes occupied, the two other cases change nothing. *)
Definition spec_transition (occ cov : bool) : bool * bool :=
  if occ && negb cov then (false, true)
  else if negb occ && cov then (true, true)
  else (occ, false).

(** [_check_chair_occupied] follows the specification's rule on the chair at
    [(line, column)]. *)
Definition follows_spec_rule (self : t) (line column : nat)
    (detection : Detection) : Prop :=
  forall row r c,
    _chair_map self !! line = Some row ->
    row !! column = Some r ->
    chairs self !! r = Some c ->
    exists self',
      _check_chair_occupied line column detection self =
        Some ((spec_transition (occupied c)
                 (covered c (predictions detection))).2, self') /\
      occupied <$> chairs self' !! r =
        Some (spec_transition (occupied c)
                (covered c (predictions detection))).1.

(** Five occupied chairs and a frame without predictions: the specification's
    rule vacates the first chair and reports a change; the code leaves it
    occupied and reports none, and [process] returns no event. *)
Lemma C1_counterexample :
  ~ follows_spec_rule Samples.five_occupied 0 0 Samples.no_chairs /\
  process "e3" Samples.no_chairs Samples.five_occupied =
    Some ((Samples.no_chairs, None), Samples.five_occupied).
Proof.
  split; [|reflexivity].
  intros H.
  destruct (H [0; 1; 2; 3; 4] 0 (mkChair (mkPoint (50 # 2) (50 # 2)) true))
    as (self' & Hcall & _); try reflexivity.
  vm_compute in Hcall. discriminate.
Qed.

(** C1 (amended).  On the chair at [(line, column)] the re-evaluation does
    this: an occupied chair that IS covered by a prediction becomes free and
    is reported as changed; a free chair that is NOT covered becomes occupied
    and is reported as changed; in the two other cases nothing changes.  No
    other chair, and nothing else of the state, is touched.  In particular a
    steady-state frame without predictions leaves every chair of the map
    occupied, and returns an event exactly when some chair was free. *)
Theorem C1_transition_rule :
  (forall self line column detection row r c,
     _chair_map self !! line = Some row ->
     row !! column = Some r ->
     chairs self !! r = Some c ->
     let cov := covered c (predictions detection) in
     let result := _check_chair_occupied line column detection self in
     (occupied c = true -> cov = true ->
      result = Some (true, with_chairs self
                             (<[r := set_occupied c false]> (chairs self)))) /\
     (occupied c = false -> cov = false ->
      result = Some (true, with_chairs self
                             (<[r := set_occupied c true]> (chairs self)))) /\
     (occupied c = false -> cov = true -> result = Some (false, self)) /\
     (occupied c = true -> cov = false -> result = Some (false, self))) /\
  (forall self event_id detection,
     wf self -> _chair_map self <> [] -> predictions detection = [] ->
     exists detection' events self',
       process event_id detection self = Some ((detection', events), self') /\
       _chair_map self' = _chair_map self /\
       (forall r, r ∈ concat (_chair_map self) ->
          occupied <$> chairs self' !! r = Some true) /\
       (events <> None <->
        exists r c, r ∈ concat (_chair_map self) /\
                    chairs self !! r = Some c /\ occupied c = false)).
Proof.
  split.
  - intros self line column detection row r c Hrow Hr Hc cov result.
    subst result. rewrite (check_chair_occupied_eq self line column row r c)
      by done.
    unfold flips, settle. fold cov.
    repeat split; intros Hocc Hcov; rewrite Hcov; cbn [negb].
    + by rewrite Hocc.
    + by rewrite Hocc.
    + rewrite Hocc. cbn. rewrite <- Hocc, set_occupied_id.
      by rewrite list_insert_id, with_chairs_id.
    + rewrite Hocc. cbn. rewrite <- Hocc, set_occupied_id.
      by rewrite list_insert_id, with_chairs_id.
  - intros self event_id detection Hwf Hmap Hnil.
    rewrite process_steady by done. cbn zeta.
    assert (forall r, r ∈ concat (_chair_map self) ->
              occupied <$> (pass self detection).1 !! r = Some true) as Hocc.
    { intros r Hr. unfold pass. rewrite visit_all_lookup, decide_True by done.
      cbn [fst]. unfold wf in Hwf.
      apply elem_of_concat in Hr as (row & Hr & Hrow).
      rewrite Forall_forall in Hwf. specialize (Hwf row Hrow).
      rewrite Forall_forall in Hwf. specialize (Hwf r Hr).
      apply lookup_lt_is_Some in Hwf as [c ->]. cbn.
      unfold settle, covered. by rewrite Hnil. }
    assert ((pass self detection).2 = true <->
            exists r c, r ∈ concat (_chair_map self) /\
                        chairs self !! r = Some c /\ occupied c = false)
      as Hchanged.
    { unfold pass. rewrite visit_all_changed. cbn [fst snd].
      unfold flips, covered. rewrite Hnil. cbn [existsb]. split.
      - intros [?|(r & c & Hr & Hc & Hf)]; [done|].
        exists r, c. by destruct (occupied c).
      - intros (r & c & Hr & Hc & Hf). right. exists r, c.
        by rewrite Hf. }
    destruct (pass self detection).2; eexists _, _, _;
      (split; [reflexivity|]); (split; [done|]); (split; [done|]).
    + split; [intros _; by apply Hchanged|done].
    + split; [done|]. intros H. apply Hchanged in H. done.
Qed.

(** The rule on the first chair of [five_occupied], seen by a prediction. *)
Lemma C1_transition_rule_witness :
  _check_chair_occupied 0 0 Samples.five_chairs Samples.five_occupied =
  Some (true,
        with_chairs Samples.five_occupied
          (<[0%nat := set_occupied (mkChair (mkPoint (50 # 2) (50 # 2)) true)
                                   false]>
             (chairs Samples.five_occupied))).
Proof.
  apply (proj1 (proj1 C1_transition_rule Samples.five_occupied 0%nat 0%nat
                  Samples.five_chairs [0; 1; 2; 3; 4]%nat 0%nat
                  (mkChair (mkPoint (50 # 2) (50 # 2)) true)
                  eq_refl eq_refl eq_refl));
    reflexivity.
Defined.

(** *** Running frames *)

(** [process] on one frame after the other, each with the identifier drawn
    for it. *)
Fixpoint run (frames : list (string * Detection)) :
    M (list (Detection * option (list EventSignal))) :=
  match frames with
  | [] => mret []
  | (event_id, detection) :: frames' =>
      out ← process event_id detection;
      outs ← run frames';
      mret (out :: outs)
  end.

Lemma run_cons event_id detection frames self :
  run ((event_id, detection) :: frames) self =
  match process event_id detection self with
  | Some (out, self') =>
      match run frames self' with
      | Some (outs, self'') => Some (out :: outs, self'')
      | None => None
      end
  | None => None
  end.
Proof.
  cbn [run]. rewrite bind_eq. destruct (process _ _ _) as [[out self']|]; [|done].
  rewrite bind_eq. by destruct (run frames self') as [[outs self'']|].
Qed.

Lemma row_chairs_points h h' row :
  map point h' = map point h ->
  map point (row_chairs h' row) = map point (row_chairs h row).
Proof.
  intros Hpoints. induction row as [|r row IH]; [done|].
  unfold row_chairs in *. cbn [omap list_omap].
  assert (point <$> h' !! r = point <$> h !! r) as Hr.
  { rewrite <- !list_lookup_fmap.
    change (map point h' !! r = map point h !! r). by rewrite Hpoints. }
  destruct (h' !! r), (h !! r); cbn in Hr |- *; try done.
  injection Hr as ->. by rewrite IH.
Qed.

(** One steady-state frame keeps the map, the count and the points. *)
Lemma steady_frame_keeps event_id detection self :
  wf self -> _chair_map self <> [] ->
  exists out self',
    process event_id detection self = Some (out, self') /\
    wf self' /\
    _chair_map self' = _chair_map self /\
    _chair_count self' = _chair_count self /\
    map point (chairs self') = map point (chairs self).
Proof.
  intros Hwf Hmap. rewrite process_steady by done. cbn zeta.
  destruct (pass self detection).2; eexists _, _;
    (split; [reflexivity|]); (split; [by apply wf_pass|]);
    (split; [done|]); (split; [done|]); apply visit_all_points.
Qed.

(** *** C9: the chair map is never restructured *)

(** C9.  Once the chair map holds a row, every later call of [process]
    returns and keeps the rows of the map (their number, their lengths,
    their order, the chair each entry refers to), the point of every chair
    and the chair count; only the flags 'occupied' may change. *)
Theorem C9_map_is_fixed (frames : list (string * Detection)) (self : t) :
  wf self -> _chair_map self <> [] ->
  exists outs self',
    run frames self = Some (outs, self') /\
    length outs = length frames /\
    _chair_map self' = _chair_map self /\
    map point (chairs self') = map point (chairs self) /\
    map (map point) (chair_rows self') = map (map point) (chair_rows self) /\
    _chair_count self' = _chair_count self.
Proof.
  revert self. induction frames as [|[event_id detection] frames IH];
    intros self Hwf Hmap.
  - by exists [], self.
  - destruct (steady_frame_keeps event_id detection self Hwf Hmap)
      as (out & self1 & Hstep & Hwf1 & Hmap1 & Hcount1 & Hpoints1).
    destruct (IH self1) as (outs & self' & Hrun & Hlen & Hmap' & Hpoints'
                            & _ & Hcount'); [done|by rewrite Hmap1|].
    exists (out :: outs), self'. rewrite run_cons, Hstep, Hrun.
    split; [done|]. split; [cbn; by rewrite Hlen|].
    split; [by rewrite Hmap', Hmap1|].
    split; [by rewrite Hpoints', Hpoints1|].
    split; [|by rewrite Hcount', Hcount1].
    unfold chair_rows. rewrite Hmap', Hmap1, !map_map.
    apply map_ext. intros row. apply row_chairs_points.
    by rewrite Hpoints', Hpoints1.
Qed.

(** Two frames after the calibration on five chairs. *)
Lemma C9_map_is_fixed_witness :
  exists outs self',
    run [("e2", Samples.no_chairs); ("e3", Samples.five_chairs)]
        Samples.five_free = Some (outs, self') /\
    length outs = 2%nat /\
    _chair_map self' = [[0; 1; 2; 3; 4]]%nat /\
    map point (chairs self') = map point (chairs Samples.five_free) /\
    map (map point) (chair_rows self') =
      map (map point) (chair_rows Samples.five_free) /\
    _chair_count self' = 5%Z.
Proof.
  apply (C9_map_is_fixed
           [("e2", Samples.no_chairs); ("e3", Samples.five_chairs)]
           Samples.five_free).
  - apply wf_dec. reflexivity.
  - discriminate.
Defined.

(** *** C7: the same frame, twice *)

(** The property in the words of the specification: when a frame's detection
    produces a change event, processing the same detection object again
    produces no event. *)
Definition second_call_is_silent (self : t) (detection : Detection) : Prop :=
  forall event_id event_id' detection' events self',
    process event_id detection self = Some ((detection', Some events), self') ->
    exists self'',
      process event_id' detection' self' = Some ((detection', None), self'').

(** Five free chairs and a frame without predictions.  The first call
    occupies the five chairs and appends the summary and the five markers to
    the detection; each marker's box holds its own chair, so the second call
    on the detection frees the five chairs and returns an event pair again. *)
Lemma C7_counterexample :
  ~ second_call_is_silent Samples.five_free Samples.no_chairs.
Proof.
  intros H.
  destruct (process "e2" Samples.no_chairs Samples.five_free)
    as [[[detection' [events|]] self']|] eqn:Hfirst;
    try (vm_compute in Hfirst; discriminate).
  destruct (H "e2" "e3" detection' events self' Hfirst) as [self'' Hsecond].
  vm_compute in Hfirst. injection Hfirst as <- <- <-.
  vm_compute in Hsecond. discriminate.
Qed.

(** C7 (amended).  For every calibrated tracker state and every detection,
    a second call of [process] on the frame's original predictions (the
    detection without what the first call appended to it) returns no event
    and leaves the state as the first call left it. *)
Theorem C7_second_call_on_original (self : t) (event_id event_id' : string)
    (detection : Detection) :
  wf self -> _chair_map self <> [] ->
  exists detection' events self',
    process event_id detection self = Some ((detection', events), self') /\
    process event_id' detection self' = Some ((detection, None), self').
Proof.
  intros Hwf Hmap.
  assert (pass (with_chairs self (pass self detection).1) detection =
          ((pass self detection).1, false)) as Hagain.
  { unfold pass at 1. cbn [_chair_map chairs with_chairs].
    apply visit_all_settled. cbn [fst]. intros r c Hr Hc.
    by eapply visit_all_settles. }
  assert (process event_id' detection
            (with_chairs self (pass self detection).1) =
          Some ((detection, None), with_chairs self (pass self detection).1))
    as Hsecond.
  { rewrite process_steady by (done || by apply wf_pass).
    cbn zeta. by rewrite Hagain. }
  rewrite process_steady by done. cbn zeta.
  destruct (pass self detection).2; by eexists _, _, _.
Qed.

Lemma C7_second_call_on_original_witness :
  exists detection' events self',
    process "e2" Samples.no_chairs Samples.five_free =
      Some ((detection', events), self') /\
    process "e3" Samples.no_chairs self' = Some ((Samples.no_chairs, None), self').
Proof.
  apply (C7_second_call_on_original Samples.five_free "e2" "e3"
           Samples.no_chairs).
  - apply wf_dec. reflexivity.
  - discriminate.
Defined.

(** *** C4: events come in pairs *)

(** C4.  On every frame [process] returns either no value or exactly the
    list [Started; Ended], both signals with the identifier drawn for the
    frame and both wrapping the detection as the call leaves it (annotated);
    never an empty list, a single signal or more than one pair.  In the steady
    state the result is no value exactly when no chair changed, and the
    detection is then left as it was. *)
Theorem C4_event_pair (self : t) (event_id : string) (detection : Detection) :
  wf self ->
  exists detection' events self',
    process event_id detection self = Some ((detection', events), self') /\
    (events = None \/
     events = Some [EventStartedSignal event_id detection';
                    EventEndedSignal event_id detection']) /\
    events <> Some [] /\
    (events <> None -> detection' = annotate self' detection) /\
    (events = None -> detection' = detection) /\
    (_chair_map self <> [] ->
     (events = None <-> (pass self detection).2 = false)).
Proof.
  intros Hwf. destruct (decide (_chair_map self = [])) as [Hmap|Hmap].
  - rewrite process_calibration by done. cbn zeta. eexists _, _, _.
    split; [reflexivity|]. repeat split; try done. by right.
  - rewrite process_steady by done. cbn zeta.
    destruct (pass self detection).2; eexists _, _, _;
      (split; [reflexivity|]); repeat split; try done;
      first [by left | by right].
Qed.

Lemma C4_event_pair_witness :
  exists detection' events self',
    process "e2" Samples.no_chairs Samples.five_free =
      Some ((detection', events), self') /\
    (events = None \/
     events = Some [EventStartedSignal "e2" detection';
                    EventEndedSignal "e2" detection']) /\
    events <> Some [] /\
    (events <> None -> detection' = annotate self' Samples.no_chairs) /\
    (events = None -> detection' = Samples.no_chairs) /\
    (_chair_map Samples.five_free <> [] ->
     (events = None <-> (pass Samples.five_free Samples.no_chairs).2 = false)).
Proof.
  apply (C4_event_pair Samples.five_free "e2" Samples.no_chairs).
  apply wf_dec. reflexivity.
Defined.

(** *** C5: rows of at most four chairs are dropped *)

(** C5.  The chair map of a calibration frame holds exactly the rows of the
    clustering that have 5 chairs or more, in their order: a row of 4 chairs
    or fewer is never in it, a row of 5 or more always is.  The chair count
    is then the number of chairs of the rows of the map. *)
Theorem C5_noise_rejection (self : t) (event_id : string)
    (detection : Detection) :
  reachable self -> _chair_map self = [] ->
  let rows := (lines_of (new_chairs detection)).1 in
  _create_chair_map detection = filter (fun row => 5 <= length row) rows /\
  (forall row, row ∈ _create_chair_map detection <->
               row ∈ rows /\ 5 <= length row) /\
  exists out self',
    process event_id detection self = Some (out, self') /\
    _chair_map self' = map (map fst) (_create_chair_map detection) /\
    _chair_count self' = Z.of_nat (length (concat (_chair_map self'))).
Proof.
  intros Hreach Hmap rows. split; [apply create_chair_map_filter|].
  split.
  - intros row. rewrite create_chair_map_filter, list_elem_of_filter. tauto.
  - destruct (reachable_wf self Hreach) as [Hwf Hcount].
    rewrite process_calibration by done. cbn zeta. eexists _, _.
    split; [reflexivity|]. split; [done|].
    unfold calibrated. cbn [_chair_count _chair_map].
    rewrite count_lines, concat_map_map, length_map.
    unfold counted in Hcount. rewrite Hmap in Hcount. cbn in Hcount. lia.
Qed.

Lemma C5_noise_rejection_witness :
  exists out self',
    process "e1" Samples.five_chairs init = Some (out, self') /\
    _chair_map self' = map (map fst) (_create_chair_map Samples.five_chairs) /\
    _chair_count self' = Z.of_nat (length (concat (_chair_map self'))).
Proof.
  apply (C5_noise_rejection init "e1" Samples.five_chairs).
  - apply reach_init.
  - reflexivity.
Defined.

(** *** C2: frames on which calibration fails *)

(** Every row of the clustering has 4 chairs or fewer (or there is none). *)
Definition never_calibrates (detection : Detection) : Prop :=
  Forall (fun row => length row <= 4) (lines_of (new_chairs detection)).1.

(** The property in the words of the specification: on such frames [process]
    returns no event, and the chair map stays empty. *)
Definition silent_while_uncalibrated (frames : list (string * Detection)) :
    Prop :=
  Forall (fun f => never_calibrates f.2) frames ->
  exists self',
    run frames init = Some (map (fun f => (f.2, None)) frames, self') /\
    _chair_map self' = [].

(** Two rows of three chairs: both rows are dropped, and the frame still
    returns an event pair. *)
Lemma C2_counterexample :
  ~ silent_while_uncalibrated [("e1", Samples.two_short_rows)].
Proof.
  intros H. destruct H as (self' & Hrun & _).
  - apply Forall_cons. split; [|by apply Forall_nil].
    unfold never_calibrates. vm_compute.
    repeat (apply Forall_cons; split; [cbn; lia|]). by apply Forall_nil.
  - vm_compute in Hrun. discriminate.
Qed.

Lemma filter_long_rows_nil {A} (rows : list (list A)) :
  Forall (fun row => length row <= 4) rows ->
  filter (fun row => 5 <= length row) rows = [].
Proof.
  induction 1 as [|row rows Hrow _ IH]; [done|].
  rewrite filter_cons, decide_False by lia. done.
Qed.

Lemma process_uncalibrated event_id detection self :
  _chair_map self = [] -> _chair_count self = 0%Z ->
  never_calibrates detection ->
  exists self',
    process event_id detection self =
      Some ((append_all detection [summary init],
             Some [EventStartedSignal event_id
                     (append_all detection [summary init]);
                   EventEndedSignal event_id
                     (append_all detection [summary init])]), self') /\
    _chair_map self' = [] /\ _chair_count self' = 0%Z.
Proof.
  intros Hmap Hcount Hnever. rewrite process_calibration by done. cbn zeta.
  assert (_create_chair_map detection = []) as Hnil.
  { rewrite create_chair_map_filter. by apply filter_long_rows_nil. }
  assert (annotate (calibrated self detection) detection =
          append_all detection [summary init]) as ->.
  { unfold annotate, summary, markers, chair_rows, calibrated.
    cbn [_chair_map _chair_count chairs]. by rewrite Hnil, Hcount. }
  eexists. split; [reflexivity|].
  unfold calibrated. cbn [_chair_map _chair_count]. by rewrite Hnil.
Qed.

(** C2 (amended).  On every sequence of frames on which calibration never
    succeeds the chair map stays empty and the chair count stays 0, and
    [process] returns on every frame one Started/Ended pair with the frame's
    identifier, wrapping the detection with the summary prediction of an empty
    map appended to it. *)
Theorem C2_uncalibrated_frames (frames : list (string * Detection)) :
  Forall (fun f => never_calibrates f.2) frames ->
  exists self',
    run frames init =
      Some (map (fun f =>
                   (append_all f.2 [summary init],
                    Some [EventStartedSignal f.1 (append_all f.2 [summary init]);
                          EventEndedSignal f.1 (append_all f.2 [summary init])]))
                frames, self') /\
    _chair_map self' = [] /\ _chair_count self' = 0%Z.
Proof.
  assert (forall self,
    _chair_map self = [] -> _chair_count self = 0%Z ->
    Forall (fun f => never_calibrates f.2) frames ->
    exists self',
      run frames self =
        Some (map (fun f =>
                     (append_all f.2 [summary init],
                      Some [EventStartedSignal f.1
                              (append_all f.2 [summary init]);
                            EventEndedSignal f.1
                              (append_all f.2 [summary init])]))
                  frames, self') /\
      _chair_map self' = [] /\ _chair_count self' = 0%Z) as Hgen.
  { induction frames as [|[event_id detection] frames IH];
      intros self Hmap Hcount Hall.
    - by exists self.
    - apply Forall_cons in Hall as [Hhere Hall].
      destruct (process_uncalibrated event_id detection self Hmap Hcount Hhere)
        as (self1 & Hstep & Hmap1 & Hcount1).
      destruct (IH self1 Hmap1 Hcount1 Hall) as (self' & Hrun & Hmap' & Hcount').
      exists self'. by rewrite run_cons, Hstep, Hrun. }
  by apply Hgen.
Qed.

Lemma C2_uncalibrated_frames_witness :
  exists self',
    run [("e1", Samples.two_short_rows); ("e2", Samples.no_chairs)] init =
      Some (map (fun f =>
                   (append_all f.2 [summary init],
                    Some [EventStartedSignal f.1 (append_all f.2 [summary init]);
                          EventEndedSignal f.1 (append_all f.2 [summary init])]))
                [("e1", Samples.two_short_rows); ("e2", Samples.no_chairs)],
            self') /\
    _chair_map self' = [] /\ _chair_count self' = 0%Z.
Proof.
  apply (C2_uncalibrated_frames
           [("e1", Samples.two_short_rows); ("e2", Samples.no_chairs)]).
  apply Forall_cons. split.
  - unfold never_calibrates. vm_compute.
    repeat (apply Forall_cons; split; [cbn; lia|]). by apply Forall_nil.
  - apply Forall_cons. split; [|by apply Forall_nil].
    unfold never_calibrates. vm_compute. by apply Forall_nil.
Defined.

(** *** C6: clustering the centers into rows *)

Lemma Qltb_lt (a b : Q) : Qltb a b = true <-> (a < b)%Q.
Proof.
  unfold Qltb. rewrite negb_true_iff, <- not_true_iff_false, Qle_bool_iff.
  split; [apply Qnot_le_lt|apply Qlt_not_le].
Qed.

Lemma Qgtb_gt (a b : Q) : Qgtb a b = true <-> (b < a)%Q.
Proof. apply (Qltb_lt b a). Qed.

Lemma same_line_iff (chair main : nat * Chair) :
  same_line chair main = true <->
  (Binary64.sub (chair_y main) 55 < chair_y chair /\
   chair_y chair < Binary64.add (chair_y main) 55)%Q.
Proof. unfold same_line. rewrite andb_true_iff, Qltb_lt, Qgtb_gt. tauto. Qed.

(** A center that is a float and passes the test is less than 55 away from
    the anchor: rounding the two bounds does not step over the center. *)
Lemma same_line_within (chair main : nat * Chair) :
  Binary64.representable (chair_y chair) ->
  same_line chair main = true ->
  (chair_y main - 55 < chair_y chair /\ chair_y chair < chair_y main + 55)%Q.
Proof.
  intros Hfloat [Hlo Hhi]%same_line_iff. split.
  - apply Qnot_le_lt. intros Hle.
    pose proof (Binary64Facts.round_ge _ _ Hfloat Hle) as Hge.
    unfold Binary64.sub in Hlo. lra.
  - apply Qnot_le_lt. intros Hle.
    pose proof (Binary64Facts.round_le _ _ Hfloat Hle) as Hge.
    unfold Binary64.add in Hhi. lra.
Qed.

(** The claim's words: the center is within 55 pixels of the anchor (less
    than 55 away, to take the narrower reading), and a center within 55
    pixels of the anchor of a row is appended to that row. *)
Definition within_55 (chair main : nat * Chair) : Prop :=
  (chair_y main - 55 < chair_y chair /\ chair_y chair < chair_y main + 55)%Q.

Definition joins_every_row_within_55 (cs : list (nat * Chair))
    (chair : nat * Chair) : Prop :=
  forall i row main,
    (lines_of cs).1 !! i = Some row -> (lines_of cs).2 !! i = Some main ->
    within_55 chair main ->
    (lines_of (cs ++ [chair])).1 !! i = Some (row ++ [chair]).

(** C6.  The centers are taken in prediction order.  With the rows and
    anchors built from the centers [cs] so far, the next center [chair]
    - is appended to every row whose anchor passes the test of the code,
      y < anchor.y + 55 and y > anchor.y - 55 with the two sums rounded to
      floats and both comparisons strict (to each of them when several pass,
      to no other row); a center that is a float and passes the test is less
      than 55 away from the anchor;
    - starts a new row, of which it is the anchor, exactly when it matches
      no anchor (in particular the first center does).
    Every row starts with its anchor. *)
Theorem C6_row_clustering (cs : list (nat * Chair)) (chair : nat * Chair) :
  let before := lines_of cs in
  let after := lines_of (cs ++ [chair]) in
  (forall detection,
     map (fun c => point c.2) (new_chairs detection) =
     map _calculate_medium_point (predictions detection)) /\
  lines_of [chair] = ([[chair]], [chair]) /\
  length before.1 = length before.2 /\
  (forall i row, before.1 !! i = Some row ->
                 head row = before.2 !! i /\ row <> []) /\
  (forall main, same_line chair main = true <->
     (Binary64.sub (chair_y main) 55 < chair_y chair /\
      chair_y chair < Binary64.add (chair_y main) 55)%Q) /\
  (forall main, Binary64.representable (chair_y chair) ->
     same_line chair main = true -> within_55 chair main) /\
  (forall i row main,
     before.1 !! i = Some row -> before.2 !! i = Some main ->
     after.1 !! i = Some (if same_line chair main then row ++ [chair] else row)) /\
  (if existsb (same_line chair) before.2
   then after.2 = before.2 /\ length after.1 = length before.1
   else after.2 = before.2 ++ [chair] /\ after.1 = before.1 ++ [[chair]]).
Proof.
  intros before after.
  pose proof (lines_of_inv cs) as [Hlen Hanchor Hne _]. fold before in Hlen, Hanchor, Hne.
  subst after. rewrite lines_of_snoc. fold before.
  destruct before as [matrix_chairs main_chairs]. cbn [fst snd] in *.
  rewrite place_chair_eq.
  split.
  { intros detection. unfold new_chairs.
    generalize (predictions detection). intros ps.
    apply list_eq. intros k.
    change (((fun c : nat * Chair => point c.2) <$>
             imap (fun k p => (k, {| point := _calculate_medium_point p;
                                     occupied := false |})) ps) !! k =
            (_calculate_medium_point <$> ps) !! k).
    rewrite !list_lookup_fmap, list_lookup_imap. by destruct (ps !! k). }
  split; [done|]. split; [done|].
  split; [intros i row Hrow; split; [by apply Hanchor|by eapply Hne]|].
  split; [apply same_line_iff|].
  split; [intros main; apply same_line_within|].
  split.
  - intros i row main Hrow Hmain.
    destruct (existsb (same_line chair) main_chairs) eqn:Hex; cbn [fst].
    + rewrite add_to_lines_lookup, Hrow. cbn. by rewrite (joined_all _ _ _ _ main).
    + rewrite lookup_app_l by (by eapply lookup_lt_Some).
      rewrite Hrow. destruct (same_line chair main) eqn:Hsame; [|done].
      assert (existsb (same_line chair) main_chairs = true) as Hyes;
        [|congruence].
      apply existsb_exists. exists main.
      split; [|done]. apply list_elem_of_In. by eapply list_elem_of_lookup_2.
  - destruct (existsb (same_line chair) main_chairs); cbn [fst snd]; [|done].
    split; [done|]. apply add_to_lines_length.
Qed.

(** The sixth chair of [two_short_rows] is 100 pixels below the first row and
    on the line of the second. *)
Lemma C6_row_clustering_witness :
  let chair := (5%nat, mkChair (mkPoint (450 # 2) (250 # 2)) false) in
  let cs := take 5 (new_chairs Samples.two_short_rows) in
  (lines_of (cs ++ [chair])).1 !! 1%nat =
  Some [(3%nat, mkChair (mkPoint (50 # 2) (250 # 2)) false);
        (4%nat, mkChair (mkPoint (250 # 2) (250 # 2)) false);
        chair].
Proof.
  intros chair cs.
  apply (proj1 (proj2 (proj2 (proj2 (proj2 (proj2 (proj2
           (C6_row_clustering cs chair)))))))
           1%nat
           [(3%nat, mkChair (mkPoint (50 # 2) (250 # 2)) false);
            (4%nat, mkChair (mkPoint (250 # 2) (250 # 2)) false)]
           (3%nat, mkChair (mkPoint (50 # 2) (250 # 2)) false));
    reflexivity.
Defined.

(** The centers of [two_rows_at_55] are the floats 0.3 and 55.3, less than
    55 apart (by 51 / 2^54).  The sum 0.3 + 55 is the float 55.3 itself, so
    the test [55.3 < 0.3 + 55] fails and the second center starts a row of
    its own. *)
Lemma C6_counterexample :
  exists anchor chair : nat * Chair,
    new_chairs Samples.two_rows_at_55 = [anchor; chair] /\
    (chair_y anchor == Samples.float_0_3)%Q /\
    (chair_y chair == Samples.float_55_3)%Q /\
    Binary64.add (chair_y anchor) 55 = Samples.float_55_3 /\
    within_55 chair anchor /\
    same_line chair anchor = false /\
    lines_of [anchor; chair] = ([[anchor]; [chair]], [anchor; chair]) /\
    ~ joins_every_row_within_55 [anchor] chair.
Proof.
  eexists _, _. split; [reflexivity|].
  split; [reflexivity|]. split; [reflexivity|].
  split; [by vm_compute|].
  assert (within_55
            (1%nat, {| point := _calculate_medium_point
                         (Samples.chair_pred 0 (Samples.float_55_3 - 1)
                            2 (Samples.float_55_3 + 1));
                       occupied := false |})
            (0%nat, {| point := _calculate_medium_point
                         (Samples.chair_pred 0 (Samples.float_0_3 - (1 # 8))
                            2 (Samples.float_0_3 + (1 # 8)));
                       occupied := false |})) as Hwithin.
  { split; by vm_compute. }
  split; [exact Hwithin|].
  split; [by vm_compute|]. split; [by vm_compute|].
  intros Hjoins.
  specialize (Hjoins 0%nat _ _ eq_refl eq_refl Hwithin).
  vm_compute in Hjoins. discriminate Hjoins.
Qed.

(** *** C8: the overlay predictions *)






Lemma chair_rows_length (self : t) :
  wf self ->
  length (concat (chair_rows self)) = length (concat (_chair_map self)).
Proof.
  unfold wf, chair_rows. induction 1 as [|row rows Hrow _ IH]; [done|].
  cbn [map concat]. rewrite !length_app, IH. f_equal.
  by apply row_chairs_length.
Qed.





(** *** C3: the region of interest *)

Module Geometry.
Import Shapely.

Lemma Qleb_le (a b : Q) : Qleb a b = true <-> (a <= b)%Q.
Proof. apply Qle_bool_iff. Qed.

Lemma between_iff (a b v : Q) :
  between a b v = true <-> (a <= v /\ v <= b \/ b <= v /\ v <= a)%Q.
Proof.
  unfold between. rewrite orb_true_iff, !andb_true_iff, !Qleb_le. tauto.
Qed.

Lemma on_segment_iff (p a b : Point) :
  on_segment p (a, b) = true <->
  (cross a b p == 0 /\
   (x a <= x p /\ x p <= x b \/ x b <= x p /\ x p <= x a) /\
   (y a <= y p /\ y p <= y b \/ y b <= y p /\ y p <= y a))%Q.
Proof.
  unfold on_segment. cbn [fst snd].
  rewrite !andb_true_iff, Qeq_bool_iff, !between_iff. tauto.
Qed.

(** A point of an edge of the ring is on the boundary, and is not
    contained. *)
Lemma on_boundary_edge (ring : list Point) (p a b : Point) :
  (a, b) ∈ edges ring -> on_segment p (a, b) = true ->
  on_boundary ring p = true.
Proof.
  intros Hedge Hseg. unfold on_boundary. apply existsb_exists.
  exists (a, b). split; [by apply list_elem_of_In|done].
Qed.

Lemma contains_not_on_boundary (ring : list Point) (p : Point) :
  on_boundary ring p = true -> contains ring p = false.
Proof. unfold contains. by intros ->. Qed.

Lemma contains_covers (ring : list Point) (p : Point) :
  contains ring p = true -> covers ring p = true.
Proof.
  unfold contains, covers. intros [_ ->]%andb_true_iff. apply orb_true_r.
Qed.

Ltac qbool :=
  repeat match goal with
  | H : Qle_bool _ _ = true |- _ => apply Qle_bool_iff in H
  | H : Qle_bool _ _ = false |- _ =>
      apply not_true_iff_false in H; rewrite Qle_bool_iff in H;
      apply Qnot_le_lt in H
  end.

Section rectangle.
Context (x0 y0 x1 y1 : Q).
Hypothesis Hx : (x0 < x1)%Q.
Hypothesis Hy : (y0 < y1)%Q.

(** The rectangle with the corners (x0, y0) and (x1, y1), in the order of
    the corners of a bounding box. *)
Definition rectangle : list Point :=
  [mkPoint x0 y0; mkPoint x1 y0; mkPoint x1 y1; mkPoint x0 y1].

Lemma on_horizontal (p : Point) (xa xb c : Q) :
  ~ (xa == xb)%Q ->
  on_segment p (mkPoint xa c, mkPoint xb c) = true <->
  (y p == c /\ (xa <= x p /\ x p <= xb \/ xb <= x p /\ x p <= xa))%Q.
Proof.
  intros Hne. rewrite on_segment_iff. unfold cross. cbn [x y]. split.
  - intros (Hc & Hxs & Hys). split; [lra|done].
  - intros (Hc & Hxs). split; [nra|]. split; [done|]. left. lra.
Qed.

Lemma on_vertical (p : Point) (c ya yb : Q) :
  ~ (ya == yb)%Q ->
  on_segment p (mkPoint c ya, mkPoint c yb) = true <->
  (x p == c /\ (ya <= y p /\ y p <= yb \/ yb <= y p /\ y p <= ya))%Q.
Proof.
  intros Hne. rewrite on_segment_iff. unfold cross. cbn [x y]. split.
  - intros (Hc & Hxs & Hys). split; [lra|done].
  - intros (Hc & Hys). split; [nra|]. split; [left; lra|done].
Qed.

Lemma crosses_horizontal (p : Point) (xa xb c : Q) :
  crosses_ray p (mkPoint xa c, mkPoint xb c) = false.
Proof. unfold crosses_ray. cbn [fst snd y]. by rewrite xorb_nilpotent. Qed.

(** A vertical edge at [x = c] is crossed by the ray from [p] when [p] is at
    the height of the edge (its upper end excluded) and left of it. *)
Lemma crosses_vertical_up (p : Point) (c ya yb : Q) :
  (ya < yb)%Q ->
  crosses_ray p (mkPoint c ya, mkPoint c yb) = true <->
  (ya <= y p /\ y p < yb /\ x p < c)%Q.
Proof.
  intros Hlt. unfold crosses_ray, Qgtb, Qltb, cross. cbn [fst snd x y].
  destruct (Qle_bool ya (y p)) eqn:E1, (Qle_bool yb (y p)) eqn:E2,
           (Qle_bool yb ya) eqn:E3; cbn [negb xorb]; qbool;
    try (exfalso; lra);
    try (split; [discriminate|intros (? & ? & ?); exfalso; lra]).
  rewrite negb_true_iff, <- not_true_iff_false, Qle_bool_iff.
  split.
  - intros H%Qnot_le_lt. repeat split; [done|done|nra].
  - intros (_ & _ & H). apply Qlt_not_le. nra.
Qed.

Lemma crosses_vertical_down (p : Point) (c ya yb : Q) :
  (yb < ya)%Q ->
  crosses_ray p (mkPoint c ya, mkPoint c yb) = true <->
  (yb <= y p /\ y p < ya /\ x p < c)%Q.
Proof.
  intros Hlt. unfold crosses_ray, Qgtb, Qltb, cross. cbn [fst snd x y].
  destruct (Qle_bool ya (y p)) eqn:E1, (Qle_bool yb (y p)) eqn:E2,
           (Qle_bool yb ya) eqn:E3; cbn [negb xorb]; qbool;
    try (exfalso; lra);
    try (split; [discriminate|intros (? & ? & ?); exfalso; lra]).
  rewrite negb_true_iff, <- not_true_iff_false, Qle_bool_iff.
  split.
  - intros H%Qnot_le_lt. repeat split; [done|done|nra].
  - intros (_ & _ & H). apply Qlt_not_le. nra.
Qed.

Lemma rectangle_boundary (p : Point) :
  on_boundary rectangle p = true <->
  ((x0 <= x p /\ x p <= x1) /\ (y0 <= y p /\ y p <= y1) /\
   (x p == x0 \/ x p == x1 \/ y p == y0 \/ y p == y1))%Q.
Proof using Hx Hy.
  unfold on_boundary, rectangle. cbn [edges zip zip_with app existsb].
  rewrite orb_false_r, !orb_true_iff.
  rewrite (on_horizontal p x0 x1 y0), (on_vertical p x1 y0 y1),
          (on_horizontal p x1 x0 y1), (on_vertical p x0 y1 y0) by lra.
  split.
  - intros [H|[H|[H|H]]]; destruct H as [He [[? ?]|[? ?]]];
      (split; [lra|]); (split; [lra|]); tauto.
  - intros ((? & ?) & (? & ?) & [Hs|[Hs|[Hs|Hs]]]).
    + do 3 right. split; [done|]. right. lra.
    + right. left. split; [done|]. left. lra.
    + left. split; [done|]. left. lra.
    + do 2 right. left. split; [done|]. right. lra.
Qed.

Lemma rectangle_crossings (p : Point) :
  odd_crossings rectangle p = true <->
  (x0 <= x p /\ x p < x1 /\ y0 <= y p /\ y p < y1)%Q.
Proof using Hx Hy.
  unfold odd_crossings, rectangle. cbn [edges zip zip_with app fold_left].
  rewrite !crosses_horizontal, xorb_false_l, xorb_false_r.
  pose proof (crosses_vertical_up p x1 y0 y1 Hy) as Hright.
  pose proof (crosses_vertical_down p x0 y1 y0 Hy) as Hleft.
  destruct (crosses_ray p (mkPoint x1 y0, mkPoint x1 y1)),
           (crosses_ray p (mkPoint x0 y1, mkPoint x0 y0)); cbn [xorb].
  - split; [discriminate|]. intros (? & ? & ? & ?).
    destruct (proj1 Hleft eq_refl) as (? & ? & ?). lra.
  - split; [|done]. intros _.
    destruct (proj1 Hright eq_refl) as (? & ? & ?).
    destruct (Qlt_le_dec (x p) x0) as [Hlt|Hle].
    + assert (false = true) as Hf by (apply Hleft; repeat split; lra).
      discriminate Hf.
    + repeat split; lra.
  - destruct (proj1 Hleft eq_refl) as (? & ? & ?).
    assert (false = true) as Hf by (apply Hright; repeat split; lra).
    discriminate Hf.
  - split; [discriminate|]. intros (? & ? & ? & ?).
    assert (false = true) as Hf by (apply Hright; repeat split; lra).
    discriminate Hf.
Qed.

(** A rectangle contains the points strictly inside it, and covers those
    and the points of its four sides. *)
Lemma rectangle_contains (p : Point) :
  contains rectangle p = true <->
  (x0 < x p /\ x p < x1 /\ y0 < y p /\ y p < y1)%Q.
Proof using Hx Hy.
  unfold contains.
  rewrite andb_true_iff, negb_true_iff, <- not_true_iff_false.
  rewrite rectangle_boundary, rectangle_crossings. split.
  - intros (Hnb & ? & ? & ? & ?).
    assert (~ (x p == x0)%Q) by (intros ?; apply Hnb; repeat split; try lra; tauto).
    assert (~ (y p == y0)%Q) by (intros ?; apply Hnb; repeat split; try lra; tauto).
    repeat split; lra.
  - intros (? & ? & ? & ?). split; [|repeat split; lra].
    intros (_ & _ & [Hs|[Hs|[Hs|Hs]]]); lra.
Qed.

Lemma rectangle_covers (p : Point) :
  covers rectangle p = true <->
  (x0 <= x p /\ x p <= x1 /\ y0 <= y p /\ y p <= y1)%Q.
Proof using Hx Hy.
  unfold covers.
  rewrite orb_true_iff, rectangle_boundary, rectangle_crossings. split.
  - intros [(? & ? & _)|(? & ? & ? & ?)]; repeat split; lra.
  - intros (? & ? & ? & ?).
    destruct (Qlt_le_dec (x p) x1), (Qlt_le_dec (y p) y1).
    + right. by repeat split.
    + left. repeat split; try done. do 3 right. lra.
    + left. repeat split; try done. right. left. lra.
    + left. repeat split; try done. right. left. lra.
Qed.

End rectangle.

End Geometry.

Import Geometry.

(** The foot point of a box built as the detector builds it, from the
    corners (xa, ya) and (xb, yb) with xa <= xb and ya <= yb: the floor of
    half the float xa + xb, and the bottom y. *)
Lemma person_foot_box (p : Prediction) (xa ya xb yb : Q) :
  boundingBox p = Samples.box xa ya xb yb ->
  (xa <= xb)%Q -> (ya <= yb)%Q ->
  x (RegionOfInterest.person_foot p) =
    inject_Z (Qfloor (Binary64.add xa xb / 2)) /\
  (y (RegionOfInterest.person_foot p) == yb)%Q.
Proof.
  intros Hbox Hxs Hys.
  unfold RegionOfInterest.person_foot, RegionOfInterest.floor_half,
    RegionOfInterest.py_min, RegionOfInterest.py_max, Qltb, Qgtb.
  rewrite Hbox. cbn [Samples.box coord0 coord1 coord2 coord3 x y fold_left].
  split.
  - do 3 f_equal. apply Binary64Facts.round_comp.
    repeat match goal with
    | |- context [Qle_bool ?a ?b] =>
        is_var a; is_var b; destruct (Qle_bool a b) eqn:?; cbn [negb] in *
    end; Geometry.qbool; lra.
  - repeat match goal with
    | |- context [Qle_bool ?a ?b] =>
        is_var a; is_var b; destruct (Qle_bool a b) eqn:?; cbn [negb] in *
    end; Geometry.qbool; lra.
Qed.

(** The property in the words of the specification: the filter keeps the
    predictions whose foot point the closed polygon holds (interior and
    boundary). *)
Definition closed_filter (region : list Point) (detection : Detection) : Prop :=
  predictions (RegionOfInterest.process region detection) =
  List.filter (fun p => Shapely.covers region (RegionOfInterest.person_foot p))
              (predictions detection).

(** The square of the specification's scenario. *)
Definition square_10 : list Point := Geometry.rectangle 0 0 10 10.

(** A box whose foot point (5, 10) is on the upper side of the square: the
    closed square holds it, and the filter drops the prediction. *)
Lemma C3_counterexample :
  ~ closed_filter square_10 (Samples.frame [Samples.chair_pred 3 4 7 10]).
Proof. intros H. vm_compute in H. discriminate. Qed.

(** C3 (amended).  The filter keeps the predictions, in their order, whose
    foot point (x = floor of half the float sum of the box's min and max x,
    y = the box's max y) lies in the interior of the polygon: a prediction
    whose foot point is on an edge of the polygon is dropped.  For a
    rectangular region the predictions kept are exactly those with the foot
    point strictly inside; those with the foot point on a side or outside
    are dropped. *)
Theorem C3_region_filter (region : list Point) (detection : Detection) :
  predictions (RegionOfInterest.process region detection) =
    List.filter
      (fun p => Shapely.contains region (RegionOfInterest.person_foot p))
      (predictions detection) /\
  frameMetadata (RegionOfInterest.process region detection) =
    frameMetadata detection /\
  (forall p, p ∈ predictions (RegionOfInterest.process region detection) <->
     p ∈ predictions detection /\
     Shapely.contains region (RegionOfInterest.person_foot p) = true) /\
  (forall p a b,
     (a, b) ∈ Shapely.edges region ->
     Shapely.on_segment (RegionOfInterest.person_foot p) (a, b) = true ->
     p ∉ predictions (RegionOfInterest.process region detection)) /\
  (forall p xa ya xb yb,
     boundingBox p = Samples.box xa ya xb yb -> (xa <= xb)%Q -> (ya <= yb)%Q ->
     x (RegionOfInterest.person_foot p) =
       inject_Z (Qfloor (Binary64.add xa xb / 2)) /\
     (y (RegionOfInterest.person_foot p) == yb)%Q) /\
  (forall x0 y0 x1 y1 p,
     (x0 < x1)%Q -> (y0 < y1)%Q -> p ∈ predictions detection ->
     let foot := RegionOfInterest.person_foot p in
     p ∈ predictions
           (RegionOfInterest.process (Geometry.rectangle x0 y0 x1 y1) detection)
     <-> (x0 < x foot /\ x foot < x1 /\ y0 < y foot /\ y foot < y1)%Q).
Proof.
  assert (forall reg p,
            p ∈ predictions (RegionOfInterest.process reg detection) <->
            p ∈ predictions detection /\
            Shapely.contains reg (RegionOfInterest.person_foot p) = true)
    as Hin.
  { intros reg p. unfold RegionOfInterest.process. cbn [predictions].
    rewrite list_elem_of_In, filter_In, <- list_elem_of_In. done. }
  split; [done|]. split; [done|]. split; [apply Hin|].
  split; [|split; [apply person_foot_box|]].
  - intros p a b Hedge Hseg [_ Hc]%Hin.
    rewrite (contains_not_on_boundary region) in Hc; [done|].
    by eapply on_boundary_edge.
  - intros x0 y0 x1 y1 p Hx Hy Hp foot. rewrite Hin.
    unfold RegionOfInterest.__pred_is_inside_region.
    rewrite (rectangle_contains x0 y0 x1 y1 Hx Hy). tauto.
Qed.

(** In the square of side 10, the box with the foot point (5, 9) is kept. *)
Lemma C3_region_filter_witness :
  Samples.chair_pred 3 4 7 9 ∈
    predictions (RegionOfInterest.process square_10
                   (Samples.frame [Samples.chair_pred 3 4 7 9])).
Proof.
  apply (proj2 (proj2 (proj2 (proj2 (proj2
           (C3_region_filter square_10
              (Samples.frame [Samples.chair_pred 3 4 7 9]))))))
           0%Q 0%Q 10%Q 10%Q (Samples.chair_pred 3 4 7 9)).
  - reflexivity.
  - reflexivity.
  - apply list_elem_of_In. left. reflexivity.
  - vm_compute. repeat split.
Defined.

(** ** Remarks *)

(** The two bounds of the row test are strict: the center 80 is exactly 55
    below the anchor 25 (the sum 25 + 55 is exact) and does not join its
    row. *)
Remark same_line_at_55 :
  same_line (1%nat, mkChair (mkPoint 25 80) false)
            (0%nat, mkChair (mkPoint 25 25) false) = false.
Proof. reflexivity. Qed.

(** The sum of the foot point is a float: for the box from x = 0.1 to
    x = 1.9 the mean of the two floats is below 1, their sum rounds to 2,
    and the foot point is at x = 1. *)
Remark person_foot_rounds_sum :
  let p := Samples.chair_pred Samples.float_0_1 0 Samples.float_1_9 3 in
  ((Samples.float_0_1 + Samples.float_1_9) / 2 < 1)%Q /\
  Binary64.add Samples.float_0_1 Samples.float_1_9 = 2%Q /\
  RegionOfInterest.person_foot p = mkPoint 1 3.
Proof. repeat split; reflexivity. Qed.

(** The first frame of the end-to-end scenario of the specification: three
    centers at y = 2 and three at y = 8.  The six centers are less than 55
    from the first one, so they form one row of six, and the frame
    calibrates the tracker. *)
Definition scenario_frame_1 : Detection :=
  Samples.frame
    [Samples.chair_pred 0 1 2 3; Samples.chair_pred 2 1 4 3;
     Samples.chair_pred 4 1 6 3; Samples.chair_pred 0 7 2 9;
     Samples.chair_pred 2 7 4 9; Samples.chair_pred 4 7 6 9].

Remark scenario_frame_1_calibrates :
  map (map fst) (_create_chair_map scenario_frame_1) = [[0; 1; 2; 3; 4; 5]]%nat /\
  _chair_count (Samples.state_after [("e1", scenario_frame_1)]) = 6%Z.
Proof. split; reflexivity. Qed.

(** A chair between two rows, less than 55 from both anchors, is in both
    rows: the two entries are the same object (address 6), and the count
    takes it twice. *)
Definition shared_chair_frame : Detection :=
  Samples.frame
    [Samples.chair_pred 0 0 50 50; Samples.chair_pred 100 0 150 50;
     Samples.chair_pred 200 0 250 50; Samples.chair_pred 300 0 350 50;
     Samples.chair_pred 400 0 450 50; Samples.chair_pred 0 100 50 150;
     Samples.chair_pred 500 50 550 100; Samples.chair_pred 100 100 150 150;
     Samples.chair_pred 200 100 250 150; Samples.chair_pred 300 100 350 150].

Remark shared_chair_rows :
  let self := Samples.state_after [("e1", shared_chair_frame)] in
  _chair_map self = [[0; 1; 2; 3; 4; 6]; [5; 6; 7; 8; 9]]%nat /\
  length (chairs self) = 10%nat /\
  _chair_count self = 11%Z.
Proof. repeat split; reflexivity. Qed.

(** ** Further properties *)

(** *** The time-to-live event *)

Module EventFacts.

(** The number of [new_detection] calls. *)
Fixpoint detections (cs : list Event.call) : nat :=
  match cs with
  | [] => 0
  | Event.NoDetection :: cs' => detections cs'
  | Event.NewDetection _ :: cs' => S (detections cs')
  end.

(** The argument of the last [new_detection] call, [d] when there is none. *)
Definition last_detection (d : Detection) (cs : list Event.call) : Detection :=
  fold_left (fun d c => match c with
                        | Event.NoDetection => d
                        | Event.NewDetection d' => d'
                        end) cs d.

(** The number of [no_detection] calls since the last [new_detection]. *)
Definition misses (n : nat) (cs : list Event.call) : nat :=
  fold_left (fun n c => match c with
                        | Event.NoDetection => S n
                        | Event.NewDetection _ => 0%nat
                        end) cs n.

Lemma apply_calls_fields (cs : list Event.call) : forall self,
  Event.ttl (Event.apply_calls self cs) = Event.ttl self /\
  Event.creation_time (Event.apply_calls self cs) = Event.creation_time self /\
  Event.num_detected_frames (Event.apply_calls self cs) =
    (Event.num_detected_frames self + Z.of_nat (detections cs))%Z /\
  Event.detection (Event.apply_calls self cs) =
    last_detection (Event.detection self) cs.
Proof.
  induction cs as [|c cs IH]; intros self.
  - cbn. repeat split; lia.
  - cbn [Event.apply_calls fold_left]. unfold Event.apply_calls in IH.
    destruct (IH (Event.apply_call self c)) as (-> & -> & -> & ->).
    destruct c as [|d]; cbn; repeat split; lia.
Qed.

Lemma apply_calls_current_ttl (cs : list Event.call) : forall self n,
  Event.current_ttl self = (Event.ttl self - Z.of_nat n)%Z ->
  Event.current_ttl (Event.apply_calls self cs) =
    (Event.ttl self - Z.of_nat (misses n cs))%Z.
Proof.
  induction cs as [|c cs IH]; intros self n Hn; [done|].
  unfold Event.apply_calls, misses in *. cbn [fold_left].
  destruct c as [|d]; cbn [Event.apply_call].
  - rewrite (IH (Event.no_detection self) (S n)); [done|]. cbn. lia.
  - rewrite (IH (Event.new_detection self d) 0%nat); [done|]. cbn. lia.
Qed.

End EventFacts.

(** X1.  Whatever calls an event receives, its [ttl] and its creation time
    never change, [num_detected_frames] is 1 plus the number of
    [new_detection] calls, and [detection] is the argument of the last
    [new_detection] call (the detection given to [__init__] when there was
    none). *)
Theorem Event_history (now : Q) (d : Detection) (ttl : Z)
    (cs : list Event.call) :
  let self := Event.apply_calls (Event.init now d ttl) cs in
  Event.ttl self = ttl /\
  Event.creation_time self = now /\
  Event.num_detected_frames self = (1 + Z.of_nat (EventFacts.detections cs))%Z /\
  Event.detection self = EventFacts.last_detection d cs.
Proof. apply (EventFacts.apply_calls_fields cs (Event.init now d ttl)). Qed.

(** X2.  An event is expired exactly when the number of [no_detection]
    calls since the last [new_detection] (since [__init__] when there was
    none) has reached its [ttl]: an event created with [ttl <= 0] is expired
    at once, and a [new_detection] revives an expired event when [ttl > 0]. *)
Theorem Event_expiry (now : Q) (d : Detection) (ttl : Z)
    (cs : list Event.call) :
  (Event.is_expired (Event.apply_calls (Event.init now d ttl) cs) = true <->
   (ttl <= Z.of_nat (EventFacts.misses 0 cs))%Z) /\
  (Event.is_expired (Event.init now d ttl) = true <-> (ttl <= 0)%Z) /\
  (forall d',
     Event.is_expired
       (Event.apply_calls (Event.init now d ttl) (cs ++ [Event.NewDetection d']))
     = true <-> (ttl <= 0)%Z).
Proof.
  assert (forall cs',
    Event.is_expired (Event.apply_calls (Event.init now d ttl) cs') = true <->
    (ttl <= Z.of_nat (EventFacts.misses 0 cs'))%Z) as Hgen.
  { intros cs'. unfold Event.is_expired.
    rewrite (EventFacts.apply_calls_current_ttl cs' (Event.init now d ttl) 0%nat)
      by (cbn; lia).
    cbn [Event.ttl Event.init]. rewrite Z.leb_le. lia. }
  split; [apply Hgen|]. split; [apply (Hgen [])|].
  intros d'. rewrite Hgen. unfold EventFacts.misses. rewrite fold_left_app.
  cbn. lia.
Qed.

(** *** The tracker over its whole life *)

Module TrackerFacts.

(** Every row of the chair map has 5 chairs or more. *)
Definition long_rows (self : t) : Prop :=
  Forall (fun row => 5 <= length row) (_chair_map self).

Lemma long_rows_calibrated self detection :
  long_rows (calibrated self detection).
Proof.
  unfold long_rows, calibrated. cbn [_chair_map].
  apply Forall_forall. intros rs (row & -> & Hrow)%list_elem_of_fmap.
  rewrite create_chair_map_filter in Hrow.
  apply list_elem_of_filter in Hrow as [Hlen _]. by rewrite length_map.
Qed.

Lemma process_keeps_long event_id detection self out self' :
  wf self -> long_rows self ->
  process event_id detection self = Some (out, self') -> long_rows self'.
Proof.
  intros Hwf Hlong.
  destruct (decide (_chair_map self = [])) as [Hmap|Hmap].
  - rewrite process_calibration by done. cbn zeta. intros [= _ <-].
    apply long_rows_calibrated.
  - rewrite process_steady by done. cbn zeta.
    destruct (pass self detection).2; by intros [= _ <-].
Qed.

Lemma reachable_long self : reachable self -> long_rows self.
Proof.
  induction 1 as [|self event_id detection out self' Hreach IH Hstep].
  - by apply Forall_nil.
  - eapply process_keeps_long; [|done|done]. by apply reachable_wf.
Qed.

Lemma run_total frames : forall self,
  wf self -> counted self ->
  exists outs self',
    run frames self = Some (outs, self') /\ length outs = length frames /\
    wf self' /\ counted self'.
Proof.
  induction frames as [|[event_id detection] frames IH]; intros self Hwf Hc.
  - by exists [], self.
  - destruct (process_total event_id detection self Hwf) as [[out self1] Hstep].
    destruct (process_keeps _ _ _ _ _ Hwf Hc Hstep) as [Hwf1 Hc1].
    destruct (IH self1 Hwf1 Hc1) as (outs & self' & Hrun & Hlen & Hwf' & Hc').
    exists (out :: outs), self'. rewrite run_cons, Hstep, Hrun.
    repeat split; try done. cbn. by rewrite Hlen.
Qed.

Lemma reachable_five_free : reachable Samples.five_free.
Proof.
  assert (exists out, process "e1" Samples.five_chairs init =
                      Some (out, Samples.five_free)) as [out Hstep].
  { eexists. rewrite process_calibration by done. cbn zeta.
    apply f_equal, f_equal2; [reflexivity|]. vm_compute. reflexivity. }
  eapply reach_process; [apply reach_init|apply Hstep].
Defined.

End TrackerFacts.

(** X3.  From [__init__] on, [process] never raises on any sequence of
    frames (no index of the chair map or of a row is out of range, no chair
    is missing): every frame gets its result. *)
Theorem process_never_raises (frames : list (string * Detection)) :
  exists outs self',
    run frames init = Some (outs, self') /\ length outs = length frames.
Proof.
  destruct (TrackerFacts.run_total frames init)
    as (outs & self' & Hrun & Hlen & _); [by apply Forall_nil|done|].
  by exists outs, self'.
Qed.

(** X4.  In every state the tracker reaches, each entry of the chair map
    refers to a chair, each row has 5 entries or more, and the chair count is
    the number of entries of the map; so a calibrated tracker counts 5 chairs
    or more. *)
Theorem reachable_invariants (self : t) :
  reachable self ->
  wf self /\
  Forall (fun row => 5 <= length row) (_chair_map self) /\
  _chair_count self = Z.of_nat (length (concat (_chair_map self))) /\
  (_chair_map self <> [] -> (5 <= _chair_count self)%Z).
Proof.
  intros Hreach. destruct (reachable_wf self Hreach) as [Hwf Hcount].
  pose proof (TrackerFacts.reachable_long self Hreach) as Hlong.
  repeat split; try done.
  intros Hmap. rewrite Hcount. unfold TrackerFacts.long_rows in Hlong.
  destruct (_chair_map self) as [|row rows]; [done|].
  apply Forall_cons in Hlong as [Hrow _]. cbn. rewrite length_app. lia.
Qed.

Lemma reachable_invariants_witness :
  wf Samples.five_free /\
  Forall (fun row => 5 <= length row) (_chair_map Samples.five_free) /\
  _chair_count Samples.five_free =
    Z.of_nat (length (concat (_chair_map Samples.five_free))) /\
  (_chair_map Samples.five_free <> [] -> (5 <= _chair_count Samples.five_free)%Z).
Proof.
  apply (reachable_invariants Samples.five_free).
  apply TrackerFacts.reachable_five_free.
Defined.

(** *** One steady-state frame *)

(** X5.  After a steady-state frame the flag of every chair of the map is
    decided by that frame alone, whatever it was before: the chair is
    occupied exactly when no prediction of the frame covers its point.
    Chairs the map does not refer to are left as they were. *)
Theorem occupancy_follows_last_frame (self : t) (event_id : string)
    (detection : Detection) :
  wf self -> _chair_map self <> [] ->
  exists out self',
    process event_id detection self = Some (out, self') /\
    (forall r c, r ∈ concat (_chair_map self) -> chairs self !! r = Some c ->
       chairs self' !! r =
         Some (set_occupied c (negb (covered c (predictions detection))))) /\
    (forall r, r ∉ concat (_chair_map self) ->
       chairs self' !! r = chairs self !! r).
Proof.
  intros Hwf Hmap.
  assert (forall r,
    (pass self detection).1 !! r =
    if decide (r ∈ concat (_chair_map self))
    then settle (predictions detection) <$> chairs self !! r
    else chairs self !! r) as Hlook.
  { intros r. unfold pass. by rewrite visit_all_lookup. }
  rewrite process_steady by done. cbn zeta.
  destruct (pass self detection).2; eexists _, _; (split; [reflexivity|]);
    cbn [chairs with_chairs]; split.
  - intros r c Hr Hc. by rewrite Hlook, decide_True, Hc.
  - intros r Hr. by rewrite Hlook, decide_False.
  - intros r c Hr Hc. by rewrite Hlook, decide_True, Hc.
  - intros r Hr. by rewrite Hlook, decide_False.
Qed.

Lemma occupancy_follows_last_frame_witness :
  exists out self',
    process "e2" Samples.no_chairs Samples.five_free = Some (out, self') /\
    (forall r c, r ∈ concat (_chair_map Samples.five_free) ->
       chairs Samples.five_free !! r = Some c ->
       chairs self' !! r =
         Some (set_occupied c
                 (negb (covered c (predictions Samples.no_chairs))))) /\
    (forall r, r ∉ concat (_chair_map Samples.five_free) ->
       chairs self' !! r = chairs Samples.five_free !! r).
Proof.
  apply (occupancy_follows_last_frame Samples.five_free "e2" Samples.no_chairs).
  - apply wf_dec. reflexivity.
  - discriminate.
Defined.

(** X6.  In the steady state [process] returns an event pair exactly when
    the call changed the tracker's state: no value means that no flag was
    written and the detection was not annotated. *)
Theorem event_iff_state_changed (self : t) (event_id : string)
    (detection : Detection) :
  wf self -> _chair_map self <> [] ->
  exists detection' events self',
    process event_id detection self = Some ((detection', events), self') /\
    (events = None <-> self' = self) /\
    (events = None -> detection' = detection).
Proof.
  intros Hwf Hmap. rewrite process_steady by done. cbn zeta.
  destruct (pass self detection).2 eqn:Hchanged; eexists _, _, _;
    (split; [reflexivity|]); (split; [|done]).
  - split; [done|]. intros Hsame. exfalso.
    unfold pass in Hchanged. apply visit_all_changed in Hchanged.
    cbn [fst snd] in Hchanged.
    destruct Hchanged as [?|(r & c & Hr & Hc & Hflip)]; [done|].
    apply (f_equal chairs) in Hsame. cbn [chairs with_chairs] in Hsame.
    apply (f_equal (fun h => h !! r)) in Hsame. unfold pass in Hsame.
    rewrite visit_all_lookup, decide_True in Hsame by done.
    cbn [fst] in Hsame. rewrite Hc in Hsame. cbn in Hsame.
    injection Hsame as Hsame. apply (f_equal occupied) in Hsame.
    unfold flips in Hflip. unfold settle in Hsame. cbn in Hsame.
    destruct (occupied c), (covered c (predictions detection)); done.
  - split; [|done]. intros _.
    assert (pass self detection = (chairs self, false)) as ->;
      [|apply with_chairs_id].
    unfold pass. apply visit_all_settled. cbn [fst]. intros r c Hr Hc.
    destruct (flips (predictions detection) c) eqn:Hflip; [|done].
    assert ((pass self detection).2 = true) as Hyes; [|congruence].
    unfold pass. apply visit_all_changed. right. by exists r, c.
Qed.

Lemma event_iff_state_changed_witness :
  exists detection' events self',
    process "e2" Samples.five_chairs Samples.five_free =
      Some ((detection', events), self') /\
    (events = None <-> self' = Samples.five_free) /\
    (events = None -> detection' = Samples.five_chairs).
Proof.
  apply (event_iff_state_changed Samples.five_free "e2" Samples.five_chairs).
  - apply wf_dec. reflexivity.
  - discriminate.
Defined.

(** X12.  [_check_chair_occupied] raises (IndexError) when [line] is not a
    row of the chair map or [column] is not an entry of the row, whatever the
    detection holds; nothing is written before it raises. *)
Theorem check_chair_occupied_out_of_range (self : t) (line column : nat)
    (detection : Detection) :
  (_chair_map self !! line = None \/
   exists row, _chair_map self !! line = Some row /\ row !! column = None) ->
  _check_chair_occupied line column detection self = None.
Proof.
  intros Hout.
  assert (chair_ref line column self = None) as Href.
  { unfold chair_ref. rewrite bind_eq. unfold get at 1. rewrite bind_eq.
    unfold lift. destruct Hout as [->|(row & -> & ->)]; done. }
  unfold _check_chair_occupied. rewrite bind_eq.
  destruct (predictions detection) as [|pred preds].
  - cbn [scan_predictions]. rewrite ret_eq, bind_eq. by rewrite Href.
  - cbn [scan_predictions]. rewrite bind_eq. by rewrite Href.
Qed.

Lemma check_chair_occupied_out_of_range_witness :
  _check_chair_occupied 0 5 Samples.no_chairs Samples.five_free = None /\
  _check_chair_occupied 1 0 Samples.five_chairs Samples.five_free = None.
Proof.
  split.
  - apply (check_chair_occupied_out_of_range Samples.five_free 0 5
             Samples.no_chairs).
    right. exists [0; 1; 2; 3; 4]%nat. split; reflexivity.
  - apply (check_chair_occupied_out_of_range Samples.five_free 1 0
             Samples.five_chairs).
    left. reflexivity.
Defined.

(** *** The rows of a calibration frame *)

Module CalibrationFacts.

(** What the clustering loop keeps besides [lines_inv]: the members of a row
    pass the row test against its anchor, the rows are taken from the chairs
    in their order, and every chair is in some row. *)
Record lines_inv' (cs : list (nat * Chair))
    (st : list (list (nat * Chair)) * list (nat * Chair)) : Prop := {
  inv_tolerance : forall i row main c,
    st.1 !! i = Some row -> st.2 !! i = Some main -> c ∈ row ->
    c = main \/ same_line c main = true;
  inv_sublist : forall i row, st.1 !! i = Some row -> row `sublist_of` cs;
  inv_covered : forall c, c ∈ cs -> exists i row, st.1 !! i = Some row /\ c ∈ row
}.

Lemma place_chair_inv' cs st chair :
  lines_inv cs st -> lines_inv' cs st ->
  lines_inv' (cs ++ [chair]) (place_chair st chair).
Proof.
  destruct st as [matrix_chairs main_chairs].
  intros [Hlen _ _ _] [Htol Hsub Hcov]. cbn [fst snd] in *.
  rewrite place_chair_eq.
  destruct (existsb (same_line chair) main_chairs) eqn:Hex.
  - split; cbn [fst snd].
    + intros i row main c. rewrite add_to_lines_lookup.
      destruct (matrix_chairs !! i) as [row0|] eqn:Hrow0; [|done].
      cbn. intros [= <-] Hmain. rewrite (joined_all _ _ _ _ main Hmain).
      destruct (same_line chair main) eqn:Hsame.
      * intros [Hc|Hc%list_elem_of_singleton]%elem_of_app;
          [by eapply Htol|subst c; by right].
      * by eapply Htol.
    + intros i row. rewrite add_to_lines_lookup.
      destruct (matrix_chairs !! i) as [row0|] eqn:Hrow0; [|done].
      cbn. intros [= <-]. unfold joined.
      destruct (main_chairs !! i); [|by apply sublist_inserts_r, (Hsub i)].
      destruct (_ && _); [|by apply sublist_inserts_r, (Hsub i)].
      apply sublist_app; [by apply (Hsub i)|done].
    + intros c [Hc|Hc%list_elem_of_singleton]%elem_of_app; [|subst c].
      * destruct (Hcov c Hc) as (i & row & Hrow & Hin).
        exists i. rewrite add_to_lines_lookup, Hrow. cbn. eexists.
        split; [done|]. unfold joined. destruct (main_chairs !! i); [|done].
        destruct (_ && _); [|done]. apply elem_of_app. by left.
      * apply existsb_exists in Hex as (main & Hmain & Hsame).
        apply list_elem_of_In, list_elem_of_lookup in Hmain as [i Hi].
        destruct (lookup_lt_is_Some_2 matrix_chairs i) as [row Hrow].
        { rewrite Hlen. by eapply lookup_lt_Some. }
        exists i. rewrite add_to_lines_lookup, Hrow. cbn. eexists.
        split; [done|]. rewrite (joined_all _ _ _ _ main Hi), Hsame.
        apply elem_of_app. right. by apply list_elem_of_singleton.
  - split; cbn [fst snd].
    + intros i row main c Hrow Hmain Hc.
      destruct (decide (i < length matrix_chairs)).
      * rewrite lookup_app_l in Hrow by lia.
        rewrite lookup_app_l in Hmain by lia. by eapply Htol.
      * rewrite lookup_app_r in Hrow by lia.
        rewrite lookup_app_r in Hmain by lia. rewrite <- Hlen in Hmain.
        destruct (i - length matrix_chairs) as [|k]; [|done].
        injection Hrow as <-. injection Hmain as <-.
        left. by apply list_elem_of_singleton.
    + intros i row Hrow. destruct (decide (i < length matrix_chairs)).
      * rewrite lookup_app_l in Hrow by lia.
        by apply sublist_inserts_r, (Hsub i).
      * rewrite lookup_app_r in Hrow by lia.
        destruct (i - length matrix_chairs) as [|k]; [|done].
        injection Hrow as <-. by apply sublist_inserts_l.
    + intros c [Hc|Hc%list_elem_of_singleton]%elem_of_app; [|subst c].
      * destruct (Hcov c Hc) as (i & row & Hrow & Hin).
        exists i, row. split; [|done].
        rewrite lookup_app_l by (by eapply lookup_lt_Some). done.
      * exists (length matrix_chairs), [chair].
        split; [|by apply list_elem_of_singleton].
        by rewrite list_lookup_middle.
Qed.

Lemma lines_of_inv' cs : lines_inv' cs (lines_of cs).
Proof.
  induction cs as [|chair cs IH] using rev_ind.
  - split; cbn; try done. intros c Hc. by apply elem_of_nil in Hc.
  - rewrite lines_of_snoc. apply place_chair_inv'; [apply lines_of_inv|done].
Qed.

(** The addresses of the chairs of a frame are 0, 1, 2, .. in order. *)
Lemma new_chairs_addresses detection :
  (new_chairs detection).*1 = seq 0 (length (predictions detection)).
Proof.
  unfold new_chairs. generalize (predictions detection). intros ps.
  apply list_eq. intros k. rewrite list_lookup_fmap, list_lookup_imap.
  destruct (ps !! k) as [p|] eqn:Hp; cbn.
  - symmetry. apply lookup_seq. split; [done|]. by eapply lookup_lt_Some.
  - symmetry. apply lookup_seq_ge. by apply lookup_ge_None.
Qed.

End CalibrationFacts.



(** X10.  The rows of the chair map of a calibration frame list their
    chairs in prediction order: the addresses of a row are a subsequence of
    0, 1, .., n-1 (n the number of predictions), so no row holds a chair
    twice. *)
Theorem rows_in_prediction_order (detection : Detection)
    (row : list (nat * Chair)) :
  row ∈ _create_chair_map detection ->
  row `sublist_of` new_chairs detection /\
  row.*1 `sublist_of` seq 0 (length (predictions detection)) /\
  NoDup row.*1.
Proof.
  rewrite create_chair_map_filter.
  intros [_ (i & Hrow)%list_elem_of_lookup]%list_elem_of_filter.
  pose proof (CalibrationFacts.lines_of_inv' (new_chairs detection))
    as [_ Hsub _].
  assert (row.*1 `sublist_of` seq 0 (length (predictions detection))) as Hseq.
  { rewrite <- CalibrationFacts.new_chairs_addresses.
    by apply fmap_sublist, (Hsub i). }
  split; [by apply (Hsub i)|]. split; [done|].
  exact (sublist_NoDup _ _ (NoDup_seq _ _) Hseq).
Qed.

Lemma rows_in_prediction_order_witness :
  let row := new_chairs Samples.five_chairs in
  row `sublist_of` new_chairs Samples.five_chairs /\
  row.*1 `sublist_of` seq 0 (length (predictions Samples.five_chairs)) /\
  NoDup row.*1.
Proof.
  apply (rows_in_prediction_order Samples.five_chairs
           (new_chairs Samples.five_chairs)).
  vm_compute. apply list_elem_of_In. left. reflexivity.
Defined.

#[local] Instance Q_eq_dec : EqDecision Q.
Proof. solve_decision. Defined.
#[local] Instance Point_eq_dec : EqDecision Point.
Proof. solve_decision. Defined.
#[local] Instance Chair_eq_dec : EqDecision Chair.
Proof. solve_decision. Defined.

(** X11.  The clustering loses no center: the chair of every prediction of
    a calibration frame is in a row, and it is missing from the chair map
    only when every row it is in has 4 chairs or fewer. *)
Theorem no_center_lost (detection : Detection) (c : nat * Chair) :
  c ∈ new_chairs detection ->
  (exists row, row ∈ (lines_of (new_chairs detection)).1 /\ c ∈ row) /\
  ((exists row, row ∈ _create_chair_map detection /\ c ∈ row) \/
   (forall row, row ∈ (lines_of (new_chairs detection)).1 -> c ∈ row ->
                length row <= 4)).
Proof.
  intros Hc.
  pose proof (CalibrationFacts.lines_of_inv' (new_chairs detection))
    as [_ _ Hcov].
  destruct (Hcov c Hc) as (i & row & Hrow & Hin).
  split; [exists row; split; [by eapply list_elem_of_lookup_2|done]|].
  destruct (decide (Exists (fun row => c ∈ row /\ 5 <= length row)
                           (lines_of (new_chairs detection)).1))
    as [Hlong|Hshort].
  - left. apply Exists_exists in Hlong as (row' & Hrow' & Hin' & Hlen).
    exists row'. split; [|done].
    rewrite create_chair_map_filter. by apply list_elem_of_filter.
  - right. intros row' Hrow' Hin'. apply Nat.nlt_ge. intros Hlen.
    apply Hshort, Exists_exists. exists row'. split; [done|].
    split; [done|lia].
Qed.

Lemma no_center_lost_witness :
  let c := (0%nat, mkChair (mkPoint (50 # 2) (50 # 2)) false) in
  (exists row, row ∈ (lines_of (new_chairs Samples.two_short_rows)).1 /\
               c ∈ row) /\
  ((exists row, row ∈ _create_chair_map Samples.two_short_rows /\ c ∈ row) \/
   (forall row, row ∈ (lines_of (new_chairs Samples.two_short_rows)).1 ->
                c ∈ row -> length row <= 4)).
Proof.
  apply (no_center_lost Samples.two_short_rows
           (0%nat, mkChair (mkPoint (50 # 2) (50 # 2)) false)).
  vm_compute. apply list_elem_of_In. left. reflexivity.
Defined.

(** *** The frame the tracker was calibrated on, and annotated frames *)

Module CoverFacts.

Lemma half_between (a b : Q) :
  (a <= b -> a <= (b - a) / 2 + a /\ (b - a) / 2 + a <= b)%Q.
Proof.
  intros Hab. assert ((b - a) / 2 * 2 == b - a)%Q as Hhalf by field.
  set (m := ((b - a) / 2)%Q) in *. split; lra.
Qed.

(** The center of a box whose corners are in order is inside the box. *)
Lemma center_inside (p : Prediction) (occ : bool) :
  (x (coord0 (boundingBox p)) <= x (coord1 (boundingBox p)))%Q ->
  (y (coord1 (boundingBox p)) <= y (coord2 (boundingBox p)))%Q ->
  inside {| point := _calculate_medium_point p; occupied := occ |} p = true.
Proof.
  intros Hxs Hys. apply inside_iff. unfold _calculate_medium_point.
  cbn [point x y].
  destruct (half_between _ _ Hxs), (half_between _ _ Hys). by repeat split.
Qed.

Lemma calibrated_chairs_lookup self detection r :
  chairs (calibrated self detection) !! r =
  (fun p => {| point := _calculate_medium_point p; occupied := false |})
    <$> predictions detection !! r.
Proof.
  unfold calibrated, new_chairs. cbn [chairs].
  change (map snd ?l) with (snd <$> l).
  rewrite list_lookup_fmap, list_lookup_imap.
  by destruct (predictions detection !! r).
Qed.

(** A chair's marker holds the chair. *)
Lemma marker_inside (i : nat) (c : Chair) : inside c (marker i c) = true.
Proof.
  apply inside_iff. unfold marker, _create_point. cbn. repeat split; lra.
Qed.

(** Every chair of the map has its marker among the markers. *)
Lemma marker_of_chair self r c :
  r ∈ concat (_chair_map self) -> chairs self !! r = Some c ->
  exists i, marker i c ∈ markers self.
Proof.
  intros (row & Hr & Hrow)%elem_of_concat Hc.
  apply list_elem_of_lookup in Hrow as [i Hi]. exists i.
  unfold markers. apply elem_of_concat.
  exists (map (marker i) (row_chairs (chairs self) row)). split.
  - apply list_elem_of_fmap. exists c. split; [done|].
    unfold row_chairs. apply list_elem_of_omap. by exists r.
  - apply list_elem_of_lookup. exists i.
    rewrite list_lookup_imap. unfold chair_rows.
    change (map ?f ?l) with (f <$> l) at 2.
    by rewrite list_lookup_fmap, Hi.
Qed.

End CoverFacts.

(** X7.  When a frame whose boxes have their corners in order calibrates
    the tracker (leaves a row in the chair map), processing the frame's
    original predictions again changes nothing and returns no value: every
    chair is free and is covered by the box it was created from. *)
Theorem calibration_frame_again (self : t) (event_id event_id' : string)
    (detection : Detection) :
  _chair_map self = [] ->
  _create_chair_map detection <> [] ->
  (forall p, p ∈ predictions detection ->
     (x (coord0 (boundingBox p)) <= x (coord1 (boundingBox p)) /\
      y (coord1 (boundingBox p)) <= y (coord2 (boundingBox p)))%Q) ->
  exists detection' events self',
    process event_id detection self = Some ((detection', events), self') /\
    process event_id' detection self' = Some ((detection, None), self').
Proof.
  intros Hmap Hrows Hboxes. rewrite process_calibration by done. cbn zeta.
  eexists _, _, _. split; [reflexivity|].
  set (self' := calibrated self detection).
  assert (pass self' detection = (chairs self', false)) as Hpass.
  { unfold pass. apply visit_all_settled. cbn [fst]. intros r c _ Hc.
    subst self'. rewrite CoverFacts.calibrated_chairs_lookup in Hc.
    destruct (predictions detection !! r) as [p|] eqn:Hp; [|done].
    injection Hc as <-. unfold flips. cbn [occupied].
    assert (covered {| point := _calculate_medium_point p; occupied := false |}
                    (predictions detection) = true) as ->; [|done].
    apply existsb_exists. exists p.
    split; [by eapply list_elem_of_In, list_elem_of_lookup_2|].
    destruct (Hboxes p) as [Hxs Hys]; [by eapply list_elem_of_lookup_2|].
    by apply CoverFacts.center_inside. }
  rewrite process_steady.
  - cbn zeta. rewrite Hpass. cbn [fst snd]. by rewrite with_chairs_id.
  - subst self'. unfold calibrated. cbn [_chair_map].
    destruct (_create_chair_map detection); done.
  - apply wf_calibrated.
Qed.

Lemma calibration_frame_again_witness :
  exists detection' events self',
    process "e1" Samples.five_chairs init =
      Some ((detection', events), self') /\
    process "e2" Samples.five_chairs self' =
      Some ((Samples.five_chairs, None), self').
Proof.
  apply (calibration_frame_again init "e1" "e2" Samples.five_chairs).
  - reflexivity.
  - vm_compute. discriminate.
  - intros p Hp. apply list_elem_of_In in Hp. cbn in Hp.
    destruct Hp as [<-|[<-|[<-|[<-|[<-|[]]]]]]; cbn; split; discriminate.
Defined.

(** X8.  Processing an annotated detection (one that went through
    [_insert_info] in the current state) frees every chair of the map,
    whatever other predictions it holds, because each chair's marker box
    contains the chair; an event pair is returned exactly when some chair of
    the map was occupied. *)
Theorem annotated_detection_frees_all (self : t) (event_id : string)
    (detection : Detection) :
  wf self -> _chair_map self <> [] ->
  exists detection' events self',
    process event_id (annotate self detection) self =
      Some ((detection', events), self') /\
    (forall r, r ∈ concat (_chair_map self) ->
       occupied <$> chairs self' !! r = Some false) /\
    (events <> None <->
     exists r c, r ∈ concat (_chair_map self) /\
                 chairs self !! r = Some c /\ occupied c = true).
Proof.
  intros Hwf Hmap.
  assert (forall r c, r ∈ concat (_chair_map self) -> chairs self !! r = Some c ->
            covered c (predictions (annotate self detection)) = true) as Hcov.
  { intros r c Hr Hc. destruct (CoverFacts.marker_of_chair self r c Hr Hc)
      as [i Hi].
    apply existsb_exists. exists (marker i c).
    split; [|apply CoverFacts.marker_inside].
    apply list_elem_of_In. unfold annotate, append_all. cbn [predictions].
    apply elem_of_app. right. by right. }
  assert (forall r, r ∈ concat (_chair_map self) -> is_Some (chairs self !! r))
    as Hsome.
  { intros r (row & Hr & Hrow)%elem_of_concat. apply lookup_lt_is_Some.
    unfold wf in Hwf. rewrite Forall_forall in Hwf. specialize (Hwf row Hrow).
    rewrite Forall_forall in Hwf. by apply Hwf. }
  assert ((pass self (annotate self detection)).2 = true <->
          exists r c, r ∈ concat (_chair_map self) /\
                      chairs self !! r = Some c /\ occupied c = true)
    as Hchanged.
  { unfold pass. rewrite visit_all_changed. cbn [fst snd]. split.
    - intros [?|(r & c & Hr & Hc & Hf)]; [done|]. exists r, c.
      unfold flips in Hf. rewrite (Hcov r c Hr Hc) in Hf.
      by destruct (occupied c).
    - intros (r & c & Hr & Hc & Hocc). right. exists r, c.
      unfold flips. by rewrite (Hcov r c Hr Hc), Hocc. }
  assert (forall r, r ∈ concat (_chair_map self) ->
            occupied <$> (pass self (annotate self detection)).1 !! r =
            Some false) as Hfree.
  { intros r Hr. unfold pass. rewrite visit_all_lookup, decide_True by done.
    cbn [fst]. destruct (Hsome r Hr) as [c Hc]. rewrite Hc.
    change (Some (negb (covered c (predictions (annotate self detection)))) =
            Some false).
    by rewrite (Hcov r c Hr Hc). }
  rewrite process_steady by done. cbn zeta.
  destruct (pass self (annotate self detection)).2; eexists _, _, _;
    (split; [reflexivity|]); (split; [done|]).
  - split; [intros _; by apply Hchanged|done].
  - split; [done|]. intros H. by apply Hchanged in H.
Qed.

Lemma annotated_detection_frees_all_witness :
  exists detection' events self',
    process "e3" (annotate Samples.five_occupied Samples.no_chairs)
            Samples.five_occupied =
      Some ((detection', events), self') /\
    (forall r, r ∈ concat (_chair_map Samples.five_occupied) ->
       occupied <$> chairs self' !! r = Some false) /\
    (events <> None <->
     exists r c, r ∈ concat (_chair_map Samples.five_occupied) /\
                 chairs Samples.five_occupied !! r = Some c /\
                 occupied c = true).
Proof.
  apply (annotated_detection_frees_all Samples.five_occupied "e3"
           Samples.no_chairs).
  - apply wf_dec. reflexivity.
  - discriminate.
Defined.

(** *** The summary prediction *)

Definition count_free (cs : list Chair) : nat :=
  length (filter (fun c => ~ Is_true (occupied c)) cs).

Lemma count_occupied_free (cs : list Chair) :
  count_occupied cs + count_free cs = length cs.
Proof.
  unfold count_occupied, count_free. induction cs as [|c cs IH]; [done|].
  rewrite !filter_cons. destruct (occupied c); cbn [Is_true].
  - rewrite decide_True, decide_False by tauto. cbn. lia.
  - rewrite decide_False, decide_True by tauto. cbn. lia.
Qed.

(** X13.  In every state the tracker reaches, the three numbers of the
    summary label add up: the total is the number of entries of the chair
    map, and it is the sum of the number of occupied entries and of the
    number of free entries shown (so the free count is never negative). *)
Theorem summary_counts_add_up (self : t) :
  reachable self ->
  let entries := concat (chair_rows self) in
  exists p,
    _add_count self = Some (p, self) /\
    length entries = length (concat (_chair_map self)) /\
    count_occupied entries + count_free entries = length entries /\
    classId p =
      "Total de caideras: " +:+ pretty (Z.of_nat (length entries)) +:+
      " | Cadeiras ocupadas: " +:+ pretty (Z.of_nat (count_occupied entries)) +:+
      " | Cadeiras livres: " +:+ pretty (Z.of_nat (count_free entries)).
Proof.
  intros Hreach entries. destruct (reachable_wf self Hreach) as [Hwf Hcount].
  exists (summary self). split; [by apply add_count_eq|].
  pose proof (chair_rows_length self Hwf) as Hlen. fold entries in Hlen.
  pose proof (count_occupied_free entries) as Hsplit.
  split; [done|]. split; [done|].
  unfold summary, count_label. cbn [classId]. fold entries.
  unfold counted in Hcount. rewrite Hcount, <- Hlen.
  replace (Z.of_nat (length entries) - Z.of_nat (count_occupied entries))%Z
    with (Z.of_nat (count_free entries)) by lia.
  done.
Qed.

Lemma summary_counts_add_up_witness :
  exists p,
    _add_count Samples.five_free = Some (p, Samples.five_free) /\
    classId p =
      "Total de caideras: 5 | Cadeiras ocupadas: 0 | Cadeiras livres: 5".
Proof.
  destruct (summary_counts_add_up Samples.five_free
              TrackerFacts.reachable_five_free) as (p & Hp & _ & _ & Hlabel).
  exists p. split; [exact Hp|]. rewrite Hlabel. reflexivity.
Defined.

(** *** The region filter *)

Lemma filter_sublist {A} (f : A -> bool) (l : list A) :
  List.filter f l `sublist_of` l.
Proof.
  induction l as [|a l IH]; [done|]. cbn.
  destruct (f a); by constructor.
Qed.

Lemma filter_twice {A} (f : A -> bool) (l : list A) :
  List.filter f (List.filter f l) = List.filter f l.
Proof.
  induction l as [|a l IH]; [done|]. cbn.
  destruct (f a) eqn:Hf; [|done]. cbn. by rewrite Hf, IH.
Qed.

(** X14.  The region filter only removes predictions: what it returns is a
    subsequence of the detection's predictions (same order, nothing added or
    altered), the rest of the detection is untouched, and filtering a
    filtered detection again changes nothing. *)
Theorem region_filter_only_removes (region : list Point)
    (detection : Detection) :
  let filtered := RegionOfInterest.process region detection in
  predictions filtered `sublist_of` predictions detection /\
  length (predictions filtered) <= length (predictions detection) /\
  frameMetadata filtered = frameMetadata detection /\
  RegionOfInterest.process region filtered = filtered.
Proof.
  cbn zeta. unfold RegionOfInterest.process. cbn [predictions frameMetadata].
  split; [apply filter_sublist|].
  split; [apply sublist_length, filter_sublist|]. split; [done|].
  by rewrite filter_twice.
Qed.

(** *** The foot point *)

Module FootFacts.
Import RegionOfInterest.

Lemma py_min_in (vs : list Q) : forall v, py_min v vs ∈ v :: vs.
Proof.
  unfold py_min. induction vs as [|u vs IH]; intros v; [by left|].
  cbn [fold_left]. specialize (IH (if Qltb u v then u else v)).
  apply elem_of_cons in IH as [->|IH].
  - destruct (Qltb u v); [right; left|left].
  - right. by right.
Qed.

Lemma py_min_le (vs : list Q) : forall v w,
  w ∈ v :: vs -> (py_min v vs <= w)%Q.
Proof.
  unfold py_min. induction vs as [|u vs IH]; intros v w Hw.
  - apply list_elem_of_singleton in Hw as ->. apply Qle_refl.
  - cbn [fold_left].
    assert ((if Qltb u v then u else v) <= v /\
            (if Qltb u v then u else v) <= u)%Q as [Hv Hu].
    { destruct (Qltb u v) eqn:E.
      - apply Qltb_lt in E. split; lra.
      - apply not_true_iff_false in E. rewrite Qltb_lt in E. split; lra. }
    apply elem_of_cons in Hw as [->|[->|Hw]%elem_of_cons].
    + eapply Qle_trans; [apply IH; left|done].
    + eapply Qle_trans; [apply IH; left|done].
    + apply IH. by right.
Qed.

Lemma py_max_in (vs : list Q) : forall v, py_max v vs ∈ v :: vs.
Proof.
  unfold py_max. induction vs as [|u vs IH]; intros v; [by left|].
  cbn [fold_left]. specialize (IH (if Qgtb u v then u else v)).
  apply elem_of_cons in IH as [->|IH].
  - destruct (Qgtb u v); [right; left|left].
  - right. by right.
Qed.

Lemma py_max_ge (vs : list Q) : forall v w,
  w ∈ v :: vs -> (w <= py_max v vs)%Q.
Proof.
  unfold py_max. induction vs as [|u vs IH]; intros v w Hw.
  - apply list_elem_of_singleton in Hw as ->. apply Qle_refl.
  - cbn [fold_left].
    assert (v <= (if Qgtb u v then u else v) /\
            u <= (if Qgtb u v then u else v))%Q as [Hv Hu].
    { destruct (Qgtb u v) eqn:E.
      - apply Qgtb_gt in E. split; lra.
      - apply not_true_iff_false in E. rewrite Qgtb_gt in E. split; lra. }
    apply elem_of_cons in Hw as [->|[->|Hw]%elem_of_cons].
    + eapply Qle_trans; [done|apply IH; left].
    + eapply Qle_trans; [done|apply IH; left].
    + apply IH. by right.
Qed.

End FootFacts.

(** X15.  For the four corners of a box in any order, the foot point's y is
    the largest y of the corners, and its x is the whole number [n] with
    [n <= s / 2 < n + 1], where [s] is the float sum [lo + hi] of the
    smallest and the largest x of the corners. *)
Theorem person_foot_of_any_box (p : Prediction) :
  let xs := map x (coordinates (boundingBox p)) in
  let ys := map y (coordinates (boundingBox p)) in
  let foot := RegionOfInterest.person_foot p in
  y foot ∈ ys /\ (forall w, w ∈ ys -> (w <= y foot)%Q) /\
  exists lo hi n,
    lo ∈ xs /\ hi ∈ xs /\ (forall w, w ∈ xs -> (lo <= w /\ w <= hi)%Q) /\
    x foot = inject_Z n /\
    (inject_Z n <= Binary64.add lo hi / 2 /\
     Binary64.add lo hi / 2 < inject_Z n + 1)%Q.
Proof.
  cbn zeta. unfold RegionOfInterest.person_foot, coordinates.
  cbn [map x y].
  split; [apply FootFacts.py_max_in|].
  split; [apply FootFacts.py_max_ge|].
  eexists _, _, _. split; [apply FootFacts.py_min_in|].
  split; [apply FootFacts.py_max_in|].
  split.
  { intros w Hw. split; [by apply FootFacts.py_min_le|by apply FootFacts.py_max_ge]. }
  split; [reflexivity|]. split; [apply Qfloor_le|].
  match goal with
  | |- (?m < _)%Q => pose proof (Qlt_floor m) as Hlt
  end.
  rewrite inject_Z_plus in Hlt. exact Hlt.
Qed.

(** *** The detector's predictions *)

Module YoloFacts.
Import YOLOv5.

Lemma frame_loop_eq names preds : forall frame_predictions,
  frame_loop names preds frame_predictions =
  (frame_predictions ++.) <$> mapM (row_prediction names) preds.
Proof.
  induction preds as [|pred preds IH]; intros acc.
  - cbn. by rewrite app_nil_r.
  - cbn [frame_loop mapM]. destruct (row_prediction names pred) as [p|]; [|done].
    cbn. rewrite IH.
    destruct (mapM (row_prediction names) preds) as [ps|]; [|done].
    cbn. by rewrite <- app_assoc.
Qed.

Lemma frames_loop_eq names xyxy : forall frames_predictions,
  frames_loop names xyxy frames_predictions =
  (frames_predictions ++.) <$> mapM (mapM (row_prediction names)) xyxy.
Proof.
  induction xyxy as [|preds xyxy IH]; intros acc.
  - cbn. by rewrite app_nil_r.
  - cbn [frames_loop mapM]. rewrite frame_loop_eq.
    destruct (mapM (row_prediction names) preds) as [ps|]; [|done].
    cbn. rewrite IH.
    destruct (mapM (mapM (row_prediction names)) xyxy) as [pss|]; [|done].
    cbn. by rewrite <- app_assoc.
Qed.

Lemma yolo_output_eq names xyxy :
  _yolo_output_to_predictions names xyxy =
  mapM (mapM (row_prediction names)) xyxy.
Proof.
  unfold _yolo_output_to_predictions. rewrite frames_loop_eq.
  by destruct (mapM _ xyxy).
Qed.

Lemma row_prediction_is_Some names pred :
  is_Some (row_prediction names pred) <->
  is_Some (names !! int_of_float (cls pred)).
Proof.
  unfold row_prediction. destruct (names !! int_of_float (cls pred)); cbn.
  - split; by eexists.
  - split; by intros [? ?].
Qed.

Lemma row_prediction_None names pred :
  row_prediction names pred = None <->
  names !! int_of_float (cls pred) = None.
Proof.
  unfold row_prediction. by destruct (names !! int_of_float (cls pred)).
Qed.

Lemma mapM_None {A B} (f : A -> option B) (l : list A) :
  mapM f l = None <-> exists a, a ∈ l /\ f a = None.
Proof.
  induction l as [|a l IH].
  - split; [done|]. intros (a & Ha & _). by apply elem_of_nil in Ha.
  - cbn [mapM]. destruct (f a) as [b|] eqn:Hfa; cbn.
    + destruct (mapM f l) as [k|]; cbn.
      * split; [done|]. intros (a' & [->|Ha']%elem_of_cons & Hnone).
        -- congruence.
        -- destruct IH as [_ IH]. discriminate IH. by exists a'.
      * split; [|done]. intros _. destruct IH as [IH _].
        destruct (IH eq_refl) as (a' & Ha' & Hnone).
        exists a'. split; [by right|done].
    + split; [|done]. intros _. exists a. split; [left|done].
Qed.

End YoloFacts.

(** X16.  The conversion of the network's output returns one list per
    frame and one prediction per row, in order, each prediction built from
    its row; it raises (KeyError) exactly when the class index of some row,
    truncated to an integer, is not a key of the model's names. *)
Theorem yolo_output_shape (names : gmap Z string)
    (xyxy : list (list YOLOv5.Row)) :
  (forall out,
     YOLOv5._yolo_output_to_predictions names xyxy = Some out <->
     Forall2 (Forall2 (fun pred p => YOLOv5.row_prediction names pred = Some p))
             xyxy out) /\
  (YOLOv5._yolo_output_to_predictions names xyxy = None <->
   exists preds pred,
     preds ∈ xyxy /\ pred ∈ preds /\
     names !! YOLOv5.int_of_float (YOLOv5.cls pred) = None).
Proof.
  rewrite YoloFacts.yolo_output_eq. split.
  - intros out. rewrite mapM_Some. split.
    + intros H. eapply Forall2_impl; [exact H|].
      intros preds ps. by rewrite mapM_Some.
    + intros H. eapply Forall2_impl; [exact H|].
      intros preds ps. by rewrite mapM_Some.
  - rewrite YoloFacts.mapM_None. split.
    + intros (preds & Hpreds & Hnone).
      apply YoloFacts.mapM_None in Hnone as (pred & Hpred & Hnone).
      exists preds, pred. split; [done|]. split; [done|].
      by apply YoloFacts.row_prediction_None.
    + intros (preds & pred & Hpreds & Hpred & Hnone).
      exists preds. split; [done|]. apply YoloFacts.mapM_None.
      exists pred. split; [done|]. by apply YoloFacts.row_prediction_None.
Qed.



(** X18.  [__call__] pairs the frames of the batch with the lists of
    predictions by position: the k-th result carries the k-th frame's
    'newFrameData' and the predictions of the k-th tensor, with an empty
    'misc'.  When the network answers for fewer frames than the batch holds,
    the frames in excess get no result. *)
Theorem call_pairs_by_position (names : gmap Z string)
    (batch : list YOLOv5.InferenceFrameData) (xyxy : list (list YOLOv5.Row))
    (out : list YOLOv5.InferencePredictionData) :
  YOLOv5.call names batch xyxy = Some out ->
  length out = Nat.min (length batch) (length xyxy) /\
  forall k batch_dict preds,
    batch !! k = Some batch_dict -> xyxy !! k = Some preds ->
    exists frame_predictions,
      mapM (YOLOv5.row_prediction names) preds = Some frame_predictions /\
      length frame_predictions = length preds /\
      out !! k =
        Some {| YOLOv5.predictions_of := frame_predictions;
                YOLOv5.newFrameData_of := YOLOv5.newFrameData batch_dict;
                YOLOv5.misc := [] |}.
Proof.
  unfold YOLOv5.call. rewrite YoloFacts.yolo_output_eq.
  destruct (mapM (mapM (YOLOv5.row_prediction names)) xyxy) as [pss|] eqn:Hpss;
    [|done].
  cbn. intros [= <-]. apply mapM_Some in Hpss.
  split.
  - rewrite length_zip_with. by rewrite (Forall2_length _ _ _ Hpss).
  - intros k batch_dict preds Hb Hpreds.
    destruct (Forall2_lookup_l _ _ _ _ _ Hpss Hpreds) as (ps & Hps & Hmap).
    exists ps. split; [done|].
    split; [symmetry; eapply Forall2_length; by apply mapM_Some|].
    rewrite lookup_zip_with, Hb. cbn. by rewrite Hps.
Qed.

Lemma call_pairs_by_position_witness :
  exists out,
    YOLOv5.call {[56%Z := "chair"]}
      [YOLOv5.mkFrameData "jpeg-1" "frame-1";
       YOLOv5.mkFrameData "jpeg-2" "frame-2"]
      [[YOLOv5.mkRow 3 4 7 10 (1 # 2) 56]] = Some out /\
    length out = 1%nat.
Proof.
  eexists. split; [reflexivity|].
  apply (call_pairs_by_position {[56%Z := "chair"]}
           [YOLOv5.mkFrameData "jpeg-1" "frame-1";
            YOLOv5.mkFrameData "jpeg-2" "frame-2"]
           [[YOLOv5.mkRow 3 4 7 10 (1 # 2) 56]]).
  reflexivity.
Defined.
